(** * TourBooking: the Express application (app.js) and the tour controller

    A shallow embedding of the two source units of the repository:
    the middleware chain of [app.js] and the request handlers of the tour
    controller ([aliasTopTours], [getTourStats], [getMonthlyPlan],
    [getToursWithin], [getDistances]).

    - JavaScript numbers are IEEE doubles ([float]); strings are [string];
      [undefined] is [None].
    - Handlers are computations in a small monad that threads the request,
      records the calls made on [res], [next] and the [Tour] model, and can
      throw (a rejected promise).
    - The aggregation pipelines are data, as in the source; a model of the
      database's stage semantics interprets them. *)

From Stdlib Require Import ZArith QArith List String Ascii Bool Lia Floats.
From Stdlib Require Import Uint63 DecimalString Permutation Sorted.
From stdpp Require Import base option list sorting gmap strings.
Import ListNotations.

Set Warnings "-inexact-float".

Local Open Scope string_scope.
Local Open Scope Z_scope.

(** ** Strings as the JavaScript runtime handles them *)

Module Str.

Definition is_lower (c : ascii) : bool :=
  let n := nat_of_ascii c in (97 <=? n)%nat && (n <=? 122)%nat.

Definition is_upper (c : ascii) : bool :=
  let n := nat_of_ascii c in (65 <=? n)%nat && (n <=? 90)%nat.

Definition upper_ascii (c : ascii) : ascii :=
  if is_lower c then ascii_of_nat (nat_of_ascii c - 32) else c.

Definition lower_ascii (c : ascii) : ascii :=
  if is_upper c then ascii_of_nat (nat_of_ascii c + 32) else c.

Fixpoint map_string (f : ascii -> ascii) (s : string) : string :=
  match s with
  | EmptyString => EmptyString
  | String c s' => String (f c) (map_string f s')
  end.

Definition toUpper : string -> string := map_string upper_ascii.
Definition toLower : string -> string := map_string lower_ascii.

(** [s.split(sep)] for a one-character separator: never empty, and
    [''.split(',')] is [['']]. *)
Fixpoint split (sep : ascii) (s : string) : list string :=
  match s with
  | EmptyString => [EmptyString]
  | String c s' =>
      if Ascii.eqb c sep then EmptyString :: split sep s'
      else match split sep s' with
           | [] => [String c EmptyString]
           | h :: t => String c h :: t
           end
  end.

Fixpoint startsWith (p s : string) : bool :=
  match p, s with
  | EmptyString, _ => true
  | String a p', String b s' => Ascii.eqb a b && startsWith p' s'
  | String _ _, EmptyString => false
  end.

End Str.

(** ** The JavaScript runtime *)

Module JS.

(** A value that is a string or [undefined]. *)
Definition strval := option string.

(** [!v]: [undefined] and the empty string are falsy. *)
Definition falsy (v : strval) : bool :=
  match v with
  | None => true
  | Some s => String.eqb s ""
  end.

(** [const [a, b] = arr]: positions past the end are [undefined]. *)
Definition destructure2 (l : list string) : strval * strval :=
  (nth_error l 0, nth_error l 1).

(** The conversions the engine performs: [ToNumber] on strings (behind
    [s * 1] and [s / c]), [Number::toString] (behind a template literal) and
    the [Date] constructor on a string ([None] is an Invalid Date). *)
Record runtime := {
  ToNumber : string -> float;
  NumberToString : float -> string;
  DateParse : string -> option Z
}.

(** [v * 1] and [v / c] for a string or [undefined] operand. *)
Definition toNumber (rt : runtime) (v : strval) : float :=
  match v with
  | None => nan
  | Some s => ToNumber rt s
  end.

End JS.

(** ** Calendar dates (UTC), as milliseconds since the epoch *)

Module Cal.

Definition msPerDay : Z := 86400000.

(** Days since 1970-01-01 of a proleptic Gregorian date. *)
Definition days_from_civil (y m d : Z) : Z :=
  let y' := if m <=? 2 then y - 1 else y in
  let era := y' / 400 in
  let yoe := y' - era * 400 in
  let doy := (153 * (if 2 <? m then m - 3 else m + 9) + 2) / 5 + d - 1 in
  let doe := yoe * 365 + yoe / 4 - yoe / 100 + doy in
  era * 146097 + doe - 719468.

(** Day of era, year of era and day of year of a day number. *)
Definition doe_of (days : Z) : Z := (days + 719468) mod 146097.
Definition yoe_of (doe : Z) : Z :=
  (doe - doe / 1460 + doe / 36524 - doe / 146096) / 365.
Definition doy_of (doe : Z) : Z :=
  let yoe := yoe_of doe in doe - (365 * yoe + yoe / 4 - yoe / 100).
Definition mp_of (doe : Z) : Z := (5 * doy_of doe + 2) / 153.

Definition month_of_days (days : Z) : Z :=
  let mp := mp_of (doe_of days) in
  if mp <? 10 then mp + 3 else mp - 9.

Definition year_of_days (days : Z) : Z :=
  let z := days + 719468 in
  let era := z / 146097 in
  let y := yoe_of (doe_of days) + era * 400 in
  if month_of_days days <=? 2 then y + 1 else y.

Definition days_of_ms (ms : Z) : Z := ms / msPerDay.

(** [$month] and the calendar year of a date, both in UTC. *)
Definition month (ms : Z) : Z := month_of_days (days_of_ms ms).
Definition year (ms : Z) : Z := year_of_days (days_of_ms ms).

(** Midnight UTC at the start of a day. *)
Definition utc (y m d : Z) : Z := days_from_civil y m d * msPerDay.

End Cal.

(** ** Errors

    Modelled from the spec: the [AppError] class of utils/appError is not
    among the sources.  An operational error carries a message and an HTTP
    status code, is marked as expected, and its envelope status is "fail" for
    a 4xx code and "error" otherwise.  Any other thrown value (a driver
    failure, a parser failure) is an error that is not marked. *)

Module Err.

Record error := {
  message : string;
  statusCode : option Z;
  status : option string;
  isOperational : bool
}.

Definition statusOf (code : Z) : string :=
  if (400 <=? code) && (code <? 500) then "fail" else "error".

Definition AppError (msg : string) (code : Z) : error :=
  {| message := msg; statusCode := Some code;
     status := Some (statusOf code); isOperational := true |}.

End Err.

(** ** The document database

    Documents are ordered field lists.  A number is held exactly ([SNum]:
    the counts and month numbers the database keeps as integers) or is a
    double ([SDouble]: a JavaScript number such as a price or a rating).
    [$avg], [$min], [$max] and [$sort] on doubles work in IEEE arithmetic
    and in the database's order of doubles, in which NaN comes first. *)

Module Mongo.

Inductive scalar :=
| SNull
| SNum (q : Q)
| SDouble (f : float)
| SStr (s : string)
| SDate (ms : Z)
| SInvalidDate
| SId (oid : string)
| SPoint (lng lat : Q).

Inductive value :=
| VScalar (s : scalar)
| VArr (l : list scalar).

Definition doc := list (string * value).

Fixpoint getField (k : string) (d : doc) : option value :=
  match d with
  | [] => None
  | (k', v) :: d' => if String.eqb k' k then Some v else getField k d'
  end.

(** Replace the field in place, or append it. *)
Fixpoint setField (k : string) (v : value) (d : doc) : doc :=
  match d with
  | [] => [(k, v)]
  | (k', v') :: d' =>
      if String.eqb k' k then (k, v) :: d' else (k', v') :: setField k v d'
  end.

Definition fieldNames (d : doc) : list string := List.map fst d.

Definition scalar_eqb (a b : scalar) : bool :=
  match a, b with
  | SNull, SNull => true
  | SNum p, SNum q => Qeq_bool p q
  | SDouble f, SDouble g => PrimFloat.eqb f g
  | SStr s, SStr t => String.eqb s t
  | SDate m, SDate n => m =? n
  | SId s, SId t => String.eqb s t
  | SPoint a1 a2, SPoint b1 b2 => Qeq_bool a1 b1 && Qeq_bool a2 b2
  | _, _ => false
  end.

(** The distinct elements, in order of first occurrence. *)
Fixpoint nub (l : list scalar) : list scalar :=
  match l with
  | [] => []
  | x :: l' => x :: List.filter (fun y => negb (scalar_eqb y x)) (nub l')
  end.

(** *** Expressions: ['$field'], literals, [$toUpper], [$month] *)

Inductive expr :=
| Field (f : string)
| Lit (s : scalar)
| ToUpper (e : expr)
| Month (e : expr).

(** [None]: the database raises an error, or the case is outside this model
    (a missing field, an operand of another type). *)
Fixpoint eval (e : expr) (d : doc) : option value :=
  match e with
  | Field f => getField f d
  | Lit s => Some (VScalar s)
  | ToUpper e' =>
      match eval e' d with
      | Some (VScalar (SStr s)) => Some (VScalar (SStr (Str.toUpper s)))
      | Some (VScalar SNull) => Some (VScalar (SStr ""))
      | _ => None
      end
  | Month e' =>
      match eval e' d with
      | Some (VScalar (SDate ms)) => Some (VScalar (SNum (inject_Z (Cal.month ms))))
      | _ => None
      end
  end.

Definition evalScalar (e : expr) (d : doc) : option scalar :=
  match eval e d with
  | Some (VScalar s) => Some s
  | _ => None
  end.

Definition evalNum (e : expr) (d : doc) : option Q :=
  match eval e d with
  | Some (VScalar (SNum q)) => Some q
  | _ => None
  end.

Definition evalDouble (e : expr) (d : doc) : option float :=
  match eval e d with
  | Some (VScalar (SDouble f)) => Some f
  | _ => None
  end.

(** *** Doubles *)

(** The database's order of doubles: NaN before every number, the numbers
    by value (so -0 and 0 are equal). *)
Definition dle (a b : float) : bool :=
  PrimFloat.is_nan a || (negb (PrimFloat.is_nan b) && (a <=? b)%float).

(** The same order on the specification of binary64. *)
Definition snan (x : spec_float) : bool :=
  match x with S754_nan => true | _ => false end.

Definition sle (x y : spec_float) : bool :=
  snan x || (negb (snan y) && SFleb x y).

Definition dmin (a b : float) : float := if dle a b then a else b.
Definition dmax (a b : float) : float := if dle a b then b else a.

Definition dminimum (q : float) (l : list float) : float := fold_right dmin q l.
Definition dmaximum (q : float) (l : list float) : float := fold_right dmax q l.

(** A count as a double. *)
Definition ofNat (n : nat) : float := PrimFloat.of_uint63 (Uint63.of_Z (Z.of_nat n)).

(** The sum of doubles, added one after the other in document order, and
    their mean: that sum divided by their number.  Every step rounds as
    IEEE addition and division do. *)
Definition dsum (l : list float) : float := fold_left PrimFloat.add l 0%float.
Definition davg (l : list float) : float := (dsum l / ofNat (length l))%float.

(** *** Accumulators of [$group] *)

Inductive accumulator :=
| Sum (e : expr)
| Avg (e : expr)
| Min (e : expr)
| Max (e : expr)
| Push (e : expr).

Definition Qsum (l : list Q) : Q := fold_right Qplus 0%Q l.

(** [$sum] adds exact numbers exactly; [$avg], [$min] and [$max] are taken
    over doubles and give a double. *)
Definition accumulate (a : accumulator) (members : list doc) : option value :=
  match a with
  | Sum e => qs ← mapM (evalNum e) members; Some (VScalar (SNum (Qsum qs)))
  | Avg e =>
      fs ← mapM (evalDouble e) members;
      match fs with
      | [] => Some (VScalar SNull)
      | _ => Some (VScalar (SDouble (davg fs)))
      end
  | Min e =>
      fs ← mapM (evalDouble e) members;
      match fs with
      | [] => Some (VScalar SNull)
      | f :: fs' => Some (VScalar (SDouble (dminimum f fs')))
      end
  | Max e =>
      fs ← mapM (evalDouble e) members;
      match fs with
      | [] => Some (VScalar SNull)
      | f :: fs' => Some (VScalar (SDouble (dmaximum f fs')))
      end
  | Push e => ss ← mapM (evalScalar e) members; Some (VArr ss)
  end.

(** *** Stages *)

Inductive cmp :=
| Gte (s : scalar)
| Lte (s : scalar).

(** A JavaScript [Date] handed to the database; an Invalid Date carries no
    instant, and no stored date compares with it. *)
Definition jsDate (d : option Z) : scalar :=
  match d with
  | Some ms => SDate ms
  | None => SInvalidDate
  end.

Inductive stage :=
| S_match (conds : list (string * list cmp))
| S_group (id : expr) (accs : list (string * accumulator))
| S_sort (field : string) (dir : Z)
| S_unwind (path : string)
| S_addFields (fs : list (string * expr))
| S_project (fs : list (string * bool))
| S_limit (n : nat)
| S_geoNear (near : float * float) (distanceField : string)
    (distanceMultiplier : float).

Definition pipeline := list stage.

(** Comparison operators match values of the operand's own type only. *)
Definition testCmp (c : cmp) (v : value) : bool :=
  match c, v with
  | Gte (SNum b), VScalar (SNum q) => Qle_bool b q
  | Lte (SNum b), VScalar (SNum q) => Qle_bool q b
  | Gte (SDouble b), VScalar (SDouble f) => (b <=? f)%float
  | Lte (SDouble b), VScalar (SDouble f) => (f <=? b)%float
  | Gte (SDate b), VScalar (SDate m) => b <=? m
  | Lte (SDate b), VScalar (SDate m) => m <=? b
  | _, _ => false
  end.

Definition matches (conds : list (string * list cmp)) (d : doc) : bool :=
  forallb (fun fc =>
             match getField (fst fc) d with
             | Some v => forallb (fun c => testCmp c v) (snd fc)
             | None => false
             end) conds.

Definition keyIs (id : expr) (k : scalar) (d : doc) : bool :=
  match evalScalar id d with
  | Some k' => scalar_eqb k' k
  | None => false
  end.

Definition groupRow (id : expr) (accs : list (string * accumulator))
    (ds : list doc) (k : scalar) : option doc :=
  fields ← mapM (fun na => v ← accumulate (snd na) (List.filter (keyIs id k) ds);
                           Some (fst na, v)) accs;
  Some (("_id", VScalar k) :: fields).

(** One output document per distinct key, in order of first occurrence. *)
Definition group (id : expr) (accs : list (string * accumulator))
    (ds : list doc) : option (list doc) :=
  keys ← mapM (evalScalar id) ds;
  mapM (groupRow id accs ds) (nub keys).

Definition sortKey (field : string) (d : doc) : option Q :=
  match getField field d with
  | Some (VScalar (SNum q)) => Some q
  | _ => None
  end.

Definition keyLe (a b : Q * doc) : Prop := (fst a <= fst b)%Q.
Definition keyGe (a b : Q * doc) : Prop := (fst b <= fst a)%Q.

#[global] Instance keyLe_dec : RelDecision keyLe.
Proof. intros a b. unfold keyLe. destruct (Qlt_le_dec (fst b) (fst a)) as [H|H].
  - right. intros H'. exact (Qlt_not_le _ _ H H').
  - left. exact H.
Defined.

#[global] Instance keyGe_dec : RelDecision keyGe.
Proof. intros a b. unfold keyGe. destruct (Qlt_le_dec (fst a) (fst b)) as [H|H].
  - right. intros H'. exact (Qlt_not_le _ _ H H').
  - left. exact H.
Defined.

Definition sortKeyD (field : string) (d : doc) : option float :=
  match getField field d with
  | Some (VScalar (SDouble f)) => Some f
  | _ => None
  end.

Definition dkeyLe (a b : float * doc) : Prop := dle (fst a) (fst b) = true.
Definition dkeyGe (a b : float * doc) : Prop := dle (fst b) (fst a) = true.

#[global] Instance dkeyLe_dec : RelDecision dkeyLe.
Proof. intros a b. unfold dkeyLe. apply bool_eq_dec. Defined.

#[global] Instance dkeyGe_dec : RelDecision dkeyGe.
Proof. intros a b. unfold dkeyGe. apply bool_eq_dec. Defined.

(** [$sort] on one numeric field, 1 ascending and -1 descending, whose
    values are all exact numbers or all doubles. *)
Definition sortDocs (field : string) (dir : Z) (ds : list doc)
    : option (list doc) :=
  match mapM (fun d => q ← sortKey field d; Some (q, d)) ds with
  | Some keyed =>
      if dir =? 1 then Some (List.map snd (merge_sort keyLe keyed))
      else if dir =? -1 then Some (List.map snd (merge_sort keyGe keyed))
      else None
  | None =>
      keyed ← mapM (fun d => f ← sortKeyD field d; Some (f, d)) ds;
      if dir =? 1 then Some (List.map snd (merge_sort dkeyLe keyed))
      else if dir =? -1 then Some (List.map snd (merge_sort dkeyGe keyed))
      else None
  end.

(** [$unwind]: one document per array element; a missing field, a null and
    an empty array give none. *)
Definition unwind (path : string) (d : doc) : list doc :=
  match getField path d with
  | Some (VArr l) => List.map (fun s => setField path (VScalar s) d) l
  | Some (VScalar SNull) => []
  | Some (VScalar _) => [d]
  | None => []
  end.

Fixpoint addFields (fs : list (string * expr)) (d : doc) : option doc :=
  match fs with
  | [] => Some d
  | (f, e) :: fs' => v ← eval e d; addFields fs' (setField f v d)
  end.

Definition listed (b : bool) (fs : list (string * bool)) (k : string) : bool :=
  existsb (fun fb => String.eqb (fst fb) k && Bool.eqb (snd fb) b) fs.

(** [$project]: with an included field, the listed fields and, unless it is
    excluded, [_id]; with exclusions only, every field but those. *)
Definition project (fs : list (string * bool)) (d : doc) : option doc :=
  if existsb snd fs then
    if existsb (fun fb => negb (snd fb) && negb (String.eqb (fst fb) "_id")) fs
    then None
    else Some (List.filter
                 (fun kv => listed true fs (fst kv)
                            || (String.eqb (fst kv) "_id" && negb (listed false fs "_id")))
                 d)
  else Some (List.filter (fun kv => negb (listed false fs (fst kv))) d).

Record geoWithin := {
  gw_field : string;
  gw_center : JS.strval * JS.strval;
  gw_radius : float
}.

(** What the deployment's geospatial index provides: the field it is built
    on, the distance in metres on the sphere between a centre [(lng, lat)]
    and a stored point, and the documents inside a spherical cap. *)
Record driver := {
  geoKey : string;
  metres : float * float -> Q * Q -> float;
  within : geoWithin -> list doc -> Err.error + list doc
}.

(** A centre [(lng, lat)] is a point when its longitude is within -180..180
    and its latitude within -90..90; NaN is neither. *)
Definition validPoint (p : float * float) : bool :=
  (-180 <=? fst p)%float && (fst p <=? 180)%float
  && (-90 <=? snd p)%float && (snd p <=? 90)%float.

(** The document with its distance from the centre, when the indexed field
    holds a point; the index has no other document. *)
Definition located (drv : driver) (near : float * float) (d : doc)
    : option (doc * float) :=
  match getField (geoKey drv) d with
  | Some (VScalar (SPoint lng lat)) => Some (d, metres drv near (lng, lat))
  | _ => None
  end.

Definition nearer (a b : doc * float) : Prop := (snd a <=? snd b)%float = true.

#[global] Instance nearer_dec : RelDecision nearer.
Proof. intros a b. unfold nearer. apply bool_eq_dec. Defined.

(** [$geoNear]: rejected when the centre is not a point; otherwise every
    document of the index, nearest first, with its distance times the
    multiplier in the distance field. *)
Definition geoNear (drv : driver) (near : float * float) (field : string)
    (mult : float) (ds : list doc) : option (list doc) :=
  if validPoint near then
    Some (List.map (fun r => setField field
                              (VScalar (SDouble (PrimFloat.mul (snd r) mult))) (fst r))
            (merge_sort nearer (omap (located drv near) ds)))
  else None.

Definition runStage (drv : driver) (s : stage) (ds : list doc)
    : option (list doc) :=
  match s with
  | S_match conds => Some (List.filter (matches conds) ds)
  | S_group id accs => group id accs ds
  | S_sort f dir => sortDocs f dir ds
  | S_unwind path => Some (List.concat (List.map (unwind path) ds))
  | S_addFields fs => mapM (addFields fs) ds
  | S_project fs => mapM (project fs) ds
  | S_limit n => Some (firstn n ds)
  | S_geoNear near f m => geoNear drv near f m ds
  end.

(** [Model.aggregate(pipeline)] over a collection. *)
Fixpoint aggregate (drv : driver) (p : pipeline) (ds : list doc)
    : option (list doc) :=
  match p with
  | [] => Some ds
  | s :: p' => ds' ← runStage drv s ds; aggregate drv p' ds'
  end.

End Mongo.

(** ** Requests, responses and the handler monad *)

Module Http.

(** A value of [req.query]: a string, a repeated key, or a bracketed key. *)
Inductive qval :=
| QStr (s : string)
| QArr (l : list string)
| QObj (m : list (string * string)).

Record request := {
  method : string;
  path : string;          (* req.path *)
  search : string;        (* the query string with its question mark, or empty *)
  ip : string;
  arrival : Z;            (* ms *)
  isJson : bool;          (* Content-Type is application/json *)
  payload : string;       (* the raw body *)
  params : gmap string string;
  query : gmap string qval
}.

Definition originalUrl (r : request) : string := path r ++ search r.

Definition withQuery (q : gmap string qval) (r : request) : request :=
  {| method := method r; path := path r; search := search r; ip := ip r;
     arrival := arrival r; isJson := isJson r; payload := payload r;
     params := params r; query := q |}.

Definition withParams (ps : gmap string string) (r : request) : request :=
  {| method := method r; path := path r; search := search r; ip := ip r;
     arrival := arrival r; isJson := isJson r; payload := payload r;
     params := ps; query := query r |}.

(** [data: { key: docs }] or [data: docs]. *)
Inductive data :=
| Wrapped (key : string) (docs : list Mongo.doc)
| Bare (docs : list Mongo.doc).

(** The response envelope; [env_debug] is the error and stack detail that
    only a development environment adds. *)
Record envelope := {
  env_status : string;
  env_results : option nat;
  env_message : option string;
  env_data : option data;
  env_debug : option Err.error
}.

Inductive resbody :=
| Json (e : envelope)
| Text (s : string)
| File (name : string).

Record response := { code : Z; body : resbody }.

Definition success (results : option nat) (d : data) : envelope :=
  {| env_status := "success"; env_results := results; env_message := None;
     env_data := Some d; env_debug := None |}.

(** What a handler does that the outside can see, in order. *)
Inductive event :=
| Next (e : option Err.error)          (* next() and next(err) *)
| Find (q : Mongo.geoWithin)           (* Tour.find(filter) *)
| Aggregate (p : Mongo.pipeline)       (* Tour.aggregate(pipeline) *)
| Send (r : response).                 (* res.status(code).json(body) *)

Record hstate := { req : request; trace : list event }.

Inductive outcome (A : Type) :=
| Returned (a : A)
| Threw (e : Err.error).
Arguments Returned {A} a.
Arguments Threw {A} e.

Definition handler (A : Type) : Type := hstate -> hstate * outcome A.

#[global] Instance handler_ret : MRet handler :=
  fun A a s => (s, Returned a).

#[global] Instance handler_bind : MBind handler :=
  fun A B f m s =>
    match m s with
    | (s', Returned a) => f a s'
    | (s', Threw e) => (s', Threw e)
    end.

Definition emit (ev : event) : handler unit :=
  fun s => ({| req := req s; trace := trace s ++ [ev] |}, Returned tt).

Definition getReq : handler request := fun s => (s, Returned (req s)).

Definition setReq (r : request) : handler unit :=
  fun s => ({| req := r; trace := trace s |}, Returned tt).

Definition throw {A} (e : Err.error) : handler A := fun s => (s, Threw e).

Definition next : handler unit := emit (Next None).
Definition nextErr (e : Err.error) : handler unit := emit (Next (Some e)).
Definition json (c : Z) (e : envelope) : handler unit :=
  emit (Send {| code := c; body := Json e |}).

Definition when (b : bool) (h : handler unit) : handler unit :=
  if b then h else mret tt.

(** Modelled from the spec: utils/catchAsync is not among the sources.  A
    failure of the wrapped asynchronous handler is routed to the error
    handler through [next(err)]. *)
Definition catchAsync (fn : handler unit) : handler unit :=
  fun s =>
    match fn s with
    | (s', Threw e) => nextErr e s'
    | r => r
    end.

(** Run a handler on a request; the events it produced. *)
Definition run (h : handler unit) (r : request) : list event :=
  trace (fst (h {| req := r; trace := [] |})).

Definition finalReq (h : handler unit) (r : request) : request :=
  req (fst (h {| req := r; trace := [] |})).

End Http.

(** ** The tour controller *)

Module TourController.
Import Mongo Http.

(** What a handler runs against: the engine, the database driver and the
    documents of the tour collection. *)
Record env := {
  rt : JS.runtime;
  drv : Mongo.driver;
  collection : list doc
}.

(** A failure raised by the driver, and the engine's TypeError: thrown
    values that are not operational errors. *)
Definition driverError : Err.error :=
  {| Err.message := "MongoServerError"; Err.statusCode := None;
     Err.status := None; Err.isOperational := false |}.

Definition typeError : Err.error :=
  {| Err.message := "TypeError"; Err.statusCode := None;
     Err.status := None; Err.isOperational := false |}.

(** [await Tour.find(filter)] *)
Definition Tour_find (E : env) (q : geoWithin) : handler (list doc) :=
  emit (Find q);;
  match within (drv E) q (collection E) with
  | inr ds => mret ds
  | inl e => throw e
  end.

(** [await Tour.aggregate(pipeline)] *)
Definition Tour_aggregate (E : env) (p : pipeline) : handler (list doc) :=
  emit (Aggregate p);;
  match aggregate (drv E) p (collection E) with
  | Some ds => mret ds
  | None => throw driverError
  end.

Definition aliasTopTours : handler unit :=
  r ← getReq;
  setReq (withQuery
            (<["fields" := QStr "name,price,ratingsAverage,summary,difficulty"]>
               (<["sort" := QStr "-ratingsAverage,price"]>
                  (<["limit" := QStr "5"]> (query r)))) r);;
  next.

Definition statsPipeline : pipeline :=
  [ S_match [("ratingsAverage", [Gte (SDouble 4.5)])];
    S_group (ToUpper (Field "difficulty"))
      [ ("numTours", Sum (Lit (SNum 1)));
        ("numRatings", Sum (Field "ratingsQuantity"));
        ("avgRating", Avg (Field "ratingsAverage"));
        ("avgPrice", Avg (Field "price"));
        ("minPrice", Min (Field "price"));
        ("maxPrice", Max (Field "price")) ];
    S_sort "avgPrice" 1 ].

Definition getTourStats (E : env) : handler unit :=
  catchAsync (
    stats ← Tour_aggregate E statsPipeline;
    json 200 (success None (Wrapped "stats" stats))).

Definition planPipeline (lo hi : option Z) : pipeline :=
  [ S_unwind "startDates";
    S_match [("startDates", [Gte (jsDate lo); Lte (jsDate hi)])];
    S_group (Month (Field "startDates"))
      [ ("numTourStarts", Sum (Lit (SNum 1)));
        ("tours", Push (Field "name")) ];
    S_addFields [("month", Field "_id")];
    S_project [("_id", false)];
    S_sort "numTourStarts" (-1);
    S_limit 12 ].

(** [new Date(`${year}-01-01`)] and [new Date(`${year}-12-31`)] *)
Definition yearStart (R : JS.runtime) (year : float) : option Z :=
  JS.DateParse R (JS.NumberToString R year ++ "-01-01").
Definition yearEnd (R : JS.runtime) (year : float) : option Z :=
  JS.DateParse R (JS.NumberToString R year ++ "-12-31").

Definition getMonthlyPlan (E : env) : handler unit :=
  catchAsync (
    r ← getReq;
    let year := PrimFloat.mul (JS.toNumber (rt E) (params r !! "year")) 1 in
    plan ← Tour_aggregate E (planPipeline (yearStart (rt E) year) (yearEnd (rt E) year));
    json 200 (success None (Wrapped "plan" plan))).

Definition latlngError : Err.error :=
  Err.AppError "Please provide latitude and longitude in the format lat,lng." 400.

(** [unit === 'mi'] *)
Definition isMi (unit : JS.strval) : bool :=
  match unit with
  | Some u => String.eqb u "mi"
  | None => false
  end.

(** [latlng.split(',')]: a TypeError when [latlng] is undefined. *)
Definition splitLatLng (latlng : JS.strval) : handler (JS.strval * JS.strval) :=
  match latlng with
  | Some s => mret (JS.destructure2 (Str.split "," s))
  | None => throw typeError
  end.

Definition radiusOf (R : JS.runtime) (unit distance : JS.strval) : float :=
  if isMi unit then (JS.toNumber R distance / 3963.2)%float
  else (JS.toNumber R distance / 6378.1)%float.

Definition getToursWithin (E : env) : handler unit :=
  catchAsync (
    r ← getReq;
    let distance := params r !! "distance" in
    let latlng := params r !! "latlng" in
    let unit := params r !! "unit" in
    ll ← splitLatLng latlng;
    let lat := fst ll in
    let lng := snd ll in
    let radius := radiusOf (rt E) unit distance in
    when (JS.falsy lat || JS.falsy lng) (nextErr latlngError);;
    tours ← Tour_find E {| gw_field := "startLocation";
                           gw_center := (lng, lat); gw_radius := radius |};
    json 200 (success (Some (length tours)) (Bare tours))).

Definition multiplierOf (unit : JS.strval) : float :=
  if isMi unit then 0.000621371%float else 0.001%float.

Definition distancesPipeline (R : JS.runtime) (lat lng : JS.strval)
    (multiplier : float) : pipeline :=
  [ S_geoNear (PrimFloat.mul (JS.toNumber R lng) 1, PrimFloat.mul (JS.toNumber R lat) 1)
      "distance" multiplier;
    S_project [("distance", true); ("name", true)] ].

Definition getDistances (E : env) : handler unit :=
  catchAsync (
    r ← getReq;
    let latlng := params r !! "latlng" in
    let unit := params r !! "unit" in
    ll ← splitLatLng latlng;
    let lat := fst ll in
    let lng := snd ll in
    let multiplier := multiplierOf unit in
    when (JS.falsy lat || JS.falsy lng) (nextErr latlngError);;
    distances ← Tour_aggregate E (distancesPipeline (rt E) lat lng multiplier);
    json 200 (success None (Wrapped "data" distances))).

End TourController.

(** ** The application: middleware stack of app.js *)

Module App.
Import Http.

(** The rate limiter's memory: the arrival times of the hits of each client. *)
Definition store := gmap string (list Z).

Inductive mwResult :=
| Pass (r : request)                                 (* next() *)
| Fail (e : Err.error)                               (* next(err) *)
| End (resp : response) (by_route : option (string * request)).

Definition middleware := store -> request -> store * mwResult.
Definition errorHandler := Err.error -> request -> response.

Inductive layer :=
| Use (mount : string) (m : middleware)      (* app.use([path,] m) *)
| All (m : middleware)                       (* app.all('*', m) *)
| UseError (h : errorHandler).               (* app.use((err, req, res, next) => ...) *)

(** A router of routes/*.js, mounted under a prefix: given the method and
    the path below the mount point, the name of the route handler that
    matches and what it does with a request (a response, or an error
    passed to [next]); [None] when no route of the router matches. *)
Definition routeHandler := request -> Err.error + response.
Definition router := string -> string -> option (string * routeHandler).

(** What a sanitising library makes of [req.query]. *)
Definition queryFilter := gmap string qval -> gmap string qval.

(** What the deployment fixes: the environment flag, the files under
    public/, which payloads are well-formed JSON, the three sanitising
    libraries (hpp is a function of its whitelist), and the three
    routers. *)
Record config := {
  development : bool;
  publicFile : string -> bool;
  wellFormed : string -> bool;
  mongoSanitizeQuery : queryFilter;
  xssQuery : queryFilter;
  hppQuery : list string -> queryFilter;
  tourRouter : router;
  userRouter : router;
  reviewRouter : router
}.

Fixpoint stripPrefix (p s : string) : option string :=
  match p, s with
  | EmptyString, _ => Some s
  | String a p', String b s' =>
      if Ascii.eqb (Str.lower_ascii a) (Str.lower_ascii b) then stripPrefix p' s'
      else None
  | String _ _, EmptyString => None
  end.

(** The path below a mount point (matching ignores case and stops at a
    segment boundary), or [None] when the layer is not on the path. *)
Definition below (mount p : string) : option string :=
  if String.eqb mount "/" then Some p
  else match stripPrefix mount p with
       | Some EmptyString => Some "/"
       | Some (String c rest) =>
           if Ascii.eqb c "/" then Some (String c rest) else None
       | None => None
       end.

Definition mounted (mount p : string) : bool :=
  match below mount p with Some _ => true | None => false end.

(** Layers that neither end the request nor touch what is tracked here:
    headers, logging, the two test middlewares. *)
Definition passThrough : middleware := fun st r => (st, Pass r).
Definition helmet := passThrough.
Definition morgan := passThrough.
Definition logHello := passThrough.
Definition setRequestTime := passThrough.

(** The sanitising layers rewrite what the client sent and pass on: here
    [req.query].  They rewrite [req.body] too, the value parsed from the
    payload, which is not tracked (the request keeps the payload as it was
    received); the route parameters are not set yet when they run. *)
Definition rewriteQuery (f : queryFilter) : middleware :=
  fun st r => (st, Pass (withQuery (f (query r)) r)).

Definition mongoSanitize (lib : queryFilter) : middleware := rewriteQuery lib.
Definition xss (lib : queryFilter) : middleware := rewriteQuery lib.
Definition hpp (lib : list string -> queryFilter) (whitelist : list string)
    : middleware :=
  rewriteQuery (lib whitelist).

(** *** Rate limiter

    Modelled from the spec: express-rate-limit and its store are not among
    the sources.  The options are the source's; the policy is the spec's: a
    counter per client key over a rolling window. *)
Record limiterOptions := { max : nat; windowMs : Z; message : string }.

Definition limiterOpts : limiterOptions :=
  {| max := 100;
     windowMs := 60 * 60 * 1000;
     message := "Too many requests from this IP, please try again in an hour!" |}.

Definition hitsOf (st : store) (client : string) : list Z :=
  default [] (st !! client).

(** The hits that are inside the window that ends at [now]. *)
Definition recent (o : limiterOptions) (now : Z) (hits : list Z) : list Z :=
  List.filter (fun t => now - windowMs o <? t) hits.

Definition rateLimit (o : limiterOptions) : middleware :=
  fun st r =>
    let hits := hitsOf st (ip r) in
    let st' := <[ip r := arrival r :: hits]> st in
    if (length (recent o (arrival r) hits) <? max o)%nat then (st', Pass r)
    else (st', End {| code := 429; body := Text (message o) |} None).

Definition limiter : middleware := rateLimit limiterOpts.

(** *** Body parser

    Modelled from the spec: express.json is not among the sources.  A JSON
    body over the cap, or one that is not well-formed, fails the request
    before the next layer; other content types are not read. *)
Definition kb : nat := 1024.
Definition bodyLimit : nat := 10 * kb.

Definition entityTooLarge : Err.error :=
  {| Err.message := "request entity too large"; Err.statusCode := Some 413;
     Err.status := None; Err.isOperational := false |}.

Definition badJson : Err.error :=
  {| Err.message := "Unexpected token in JSON"; Err.statusCode := Some 400;
     Err.status := None; Err.isOperational := false |}.

Definition expressJson (limit : nat) (wf : string -> bool) : middleware :=
  fun st r =>
    if isJson r then
      if (limit <? String.length (payload r))%nat then (st, Fail entityTooLarge)
      else if String.eqb (payload r) "" || wf (payload r) then (st, Pass r)
      else (st, Fail badJson)
    else (st, Pass r).

(** The body of the request as a handler gets it: the JSON text that
    [req.body] was parsed from, and nothing for another content type. *)
Definition observedBody (r : request) : string :=
  if isJson r then payload r else "".

(** [express.static]: serves an existing file on GET and HEAD. *)
Definition static (files : string -> bool) : middleware :=
  fun st r =>
    if (String.eqb (method r) "GET" || String.eqb (method r) "HEAD")
       && files (path r)
    then (st, End {| code := 200; body := File (path r) |} None)
    else (st, Pass r).

Definition routerMw (mount : string) (rt : router) : middleware :=
  fun st r =>
    match below mount (path r) with
    | Some rest =>
        match rt (method r) rest with
        | Some (h, handle) =>
            match handle r with
            | inr resp => (st, End resp (Some (h, r)))
            | inl e => (st, Fail e)
            end
        | None => (st, Pass r)
        end
    | None => (st, Pass r)
    end.

Definition catchAll : middleware :=
  fun st r =>
    (st, Fail (Err.AppError ("Can't find " ++ originalUrl r ++ " on this server!") 404)).

(** *** Error handler

    Modelled from the spec: controllers/errorController is not among the
    sources.  An operational error is rendered with its own code, status
    and message; any other failure is a 500 whose message is generic
    outside development; development adds the error detail. *)
Definition genericMessage : string := "Something went very wrong!".

Definition failure (st : string) (msg : string) (dbg : option Err.error) : envelope :=
  {| env_status := st; env_results := None; env_message := Some msg;
     env_data := None; env_debug := dbg |}.

Definition globalErrorHandler (dev : bool) : errorHandler :=
  fun e _ =>
    let c := default 500 (Err.statusCode e) in
    let st := default "error" (Err.status e) in
    if dev then {| code := c; body := Json (failure st (Err.message e) (Some e)) |}
    else if Err.isOperational e
         then {| code := c; body := Json (failure st (Err.message e) None) |}
         else {| code := 500; body := Json (failure "error" genericMessage None) |}.

(** *** Dispatch *)

(** What the application did with one request. *)
Record served := {
  resp : response;
  by_route : option (string * request)   (* the route handler that ran, and the request it saw *)
}.

(** Express's last resort when no error handler is registered. *)
Definition defaultError (e : Err.error) : response :=
  {| code := default 500 (Err.statusCode e); body := Text (Err.message e) |}.

(** Express's last resort when no layer answers. *)
Definition defaultNotFound (r : request) : response :=
  {| code := 404; body := Text ("Cannot " ++ method r ++ " " ++ path r) |}.

(** After [next(err)]: the first error handler further down the stack. *)
Fixpoint dispatchError (ls : list layer) (e : Err.error) (r : request) : response :=
  match ls with
  | [] => defaultError e
  | UseError h :: _ => h e r
  | _ :: ls' => dispatchError ls' e r
  end.

(** One layer ran: go on, divert to the error handlers, or stop. *)
Definition settle (rest : list layer) (r : request)
    (k : store -> request -> store * served)
    (out : store * mwResult) : store * served :=
  match out with
  | (st, Pass r') => k st r'
  | (st, Fail e) => (st, {| resp := dispatchError rest e r; by_route := None |})
  | (st, End rs d) => (st, {| resp := rs; by_route := d |})
  end.

Fixpoint dispatch (ls : list layer) (st : store) (r : request) : store * served :=
  match ls with
  | [] => (st, {| resp := defaultNotFound r; by_route := None |})
  | UseError _ :: ls' => dispatch ls' st r
  | Use mount m :: ls' =>
      if mounted mount (path r) then settle ls' r (dispatch ls') (m st r)
      else dispatch ls' st r
  | All m :: ls' => settle ls' r (dispatch ls') (m st r)
  end.

(** The stack, in the order app.js registers it. *)
Definition stack (C : config) : list layer :=
  [ Use "/" helmet ]
  ++ (if development C then [ Use "/" morgan ] else [])
  ++ [ Use "/api" limiter;
       Use "/" (expressJson bodyLimit (wellFormed C));
       Use "/" (mongoSanitize (mongoSanitizeQuery C));
       Use "/" (xss (xssQuery C));
       Use "/" (hpp (hppQuery C)
                  [ "duration"; "ratingsQuantity"; "ratingsAverage";
                    "maxGroupSize"; "difficulty"; "price" ]);
       Use "/" (static (publicFile C));
       Use "/" logHello;
       Use "/" setRequestTime;
       Use "/api/v1/tours" (routerMw "/api/v1/tours" (tourRouter C));
       Use "/api/v1/users" (routerMw "/api/v1/users" (userRouter C));
       Use "/api/v1/reviews" (routerMw "/api/v1/reviews" (reviewRouter C));
       All catchAll;
       UseError (globalErrorHandler (development C)) ].

Definition app (C : config) (st : store) (r : request) : store * served :=
  dispatch (stack C) st r.

(** The server over a sequence of requests, in arrival order. *)
Fixpoint serve (C : config) (st : store) (rs : list request) : store * list served :=
  match rs with
  | [] => (st, [])
  | r :: rs' =>
      let '(st1, o) := app C st r in
      let '(st2, os) := serve C st1 rs' in
      (st2, o :: os)
  end.

Definition responses (C : config) (rs : list request) : list served :=
  snd (serve C ∅ rs).

(** A request matches a mounted route when a router bound to its path has
    a route for its method and the rest of its path. *)
Definition routeOf (mount : string) (rt : router) (r : request)
    : option (string * routeHandler) :=
  match below mount (path r) with
  | Some rest => rt (method r) rest
  | None => None
  end.

Definition matchesRoute (C : config) (r : request) : bool :=
  match routeOf "/api/v1/tours" (tourRouter C) r,
        routeOf "/api/v1/users" (userRouter C) r,
        routeOf "/api/v1/reviews" (reviewRouter C) r with
  | None, None, None => false
  | _, _, _ => true
  end.

End App.

(** ** Tour documents

    Modelled from the spec: the schema of models/tourModel is not among the
    sources.  A tour has the fields the controller's pipelines and filters
    name: its rating and its price are JavaScript numbers, its rating count
    is a whole number, its start location a point (longitude, latitude). *)

Module Model.
Import Mongo.

Record Tour := {
  id : string;
  name : string;
  difficulty : string;
  ratingsAverage : float;
  ratingsQuantity : Q;
  price : float;
  startDates : list Z;
  startLocation : Q * Q
}.

Definition toDoc (t : Tour) : doc :=
  [ ("_id", VScalar (SId (id t)));
    ("name", VScalar (SStr (name t)));
    ("difficulty", VScalar (SStr (difficulty t)));
    ("ratingsAverage", VScalar (SDouble (ratingsAverage t)));
    ("ratingsQuantity", VScalar (SNum (ratingsQuantity t)));
    ("price", VScalar (SDouble (price t)));
    ("startDates", VArr (List.map SDate (startDates t)));
    ("startLocation", VScalar (SPoint (fst (startLocation t)) (snd (startLocation t)))) ].

End Model.

(** ** A reference engine and driver, for running the handlers

    The engine is ECMAScript's on a small domain: [ToNumber] on strings of
    decimal digits, [Number::toString] on non-negative integers, and the
    [Date] constructor on the date-only form YYYY-MM-DD.  Outside that
    domain it answers NaN, the empty string or an Invalid Date, and is not
    meant to be used. *)

Module Ref.

Definition digit (c : ascii) : option Z :=
  let n := Z.of_nat (nat_of_ascii c) in
  if (48 <=? n) && (n <=? 57) then Some (n - 48) else None.

Fixpoint digits (acc : Z) (s : string) : option Z :=
  match s with
  | EmptyString => Some acc
  | String c s' => d ← digit c; digits (10 * acc + d) s'
  end.

Definition floatOfZ (z : Z) : float := PrimFloat.of_uint63 (Uint63.of_Z z).

Definition ToNumber (s : string) : float :=
  match digits 0 s with
  | Some z => if z <? 2 ^ 53 then floatOfZ z else nan
  | None => nan
  end.

Definition integerOf (f : float) : option Z :=
  match Prim2SF f with
  | S754_zero _ => Some 0
  | S754_finite sg m e =>
      let z := if 0 <=? e then Z.pos m * 2 ^ e
               else if Z.pos m mod 2 ^ (- e) =? 0 then Z.pos m / 2 ^ (- e) else -1 in
      if sg || (z <? 0) then None else Some z
  | _ => None
  end.

Definition NumberToString (f : float) : string :=
  if PrimFloat.is_nan f then "NaN"
  else match integerOf f with
       | Some z => NilZero.string_of_int (Z.to_int z)
       | None => ""
       end.

Definition field (s : string) (from len : nat) : option Z :=
  let t := String.substring from len s in
  if (String.length t =? len)%nat then digits 0 t else None.

Definition DateParse (s : string) : option Z :=
  if (String.length s =? 10)%nat
     && String.eqb (String.substring 4 1 s) "-"
     && String.eqb (String.substring 7 1 s) "-"
  then
    y ← field s 0 4; m ← field s 5 2; d ← field s 8 2;
    if (1 <=? m) && (m <=? 12) && (1 <=? d) && (d <=? 31)
    then Some (Cal.utc y m d) else None
  else None.

Definition runtime : JS.runtime :=
  {| JS.ToNumber := ToNumber; JS.NumberToString := NumberToString;
     JS.DateParse := DateParse |}.

(** A driver whose index is on startLocation and puts every point at 1000
    metres and inside every cap. *)
Definition driver : Mongo.driver :=
  {| Mongo.geoKey := "startLocation";
     Mongo.metres := fun _ _ => 1000%float;
     Mongo.within := fun _ ds => inr ds |}.

Definition env (tours : list Model.Tour) : TourController.env :=
  {| TourController.rt := runtime; TourController.drv := driver;
     TourController.collection := List.map Model.toDoc tours |}.

(** A request for a route of the tour router with the given parameters. *)
Definition get (p : string) (ps : list (string * string)) : Http.request :=
  {| Http.method := "GET"; Http.path := p; Http.search := ""; Http.ip := "10.0.0.1";
     Http.arrival := 0; Http.isJson := false; Http.payload := "";
     Http.params := list_to_map ps; Http.query := ∅ |}.

End Ref.

(** ** Vocabulary of the statements *)

Module Obs.
Import Mongo Model Http TourController.

(** The query object aliasTopTours leaves on the request. *)
Definition aliasQuery (q : gmap string qval) : gmap string qval :=
  <["fields" := QStr "name,price,ratingsAverage,summary,difficulty"]>
    (<["sort" := QStr "-ratingsAverage,price"]>
       (<["limit" := QStr "5"]> q)).

(** The filter handed to [Tour.find]. *)
Definition withinQuery (E : env) (r : request) (l : string) : geoWithin :=
  let ll := JS.destructure2 (Str.split "," l) in
  {| gw_field := "startLocation";
     gw_center := (snd ll, fst ll);
     gw_radius := radiusOf (rt E) (params r !! "unit") (params r !! "distance") |}.

(** Whether [latlng] yields both a latitude and a longitude. *)
Definition centerGiven (l : string) : bool :=
  let ll := JS.destructure2 (Str.split "," l) in
  negb (JS.falsy (fst ll) || JS.falsy (snd ll)).

(** The centre and the pipeline getDistances builds from [latlng]. *)
Definition nearPoint (E : env) (l : string) : float * float :=
  let ll := JS.destructure2 (Str.split "," l) in
  (PrimFloat.mul (JS.toNumber (rt E) (snd ll)) 1,
   PrimFloat.mul (JS.toNumber (rt E) (fst ll)) 1).

Definition distancesQuery (E : env) (r : request) (l : string) : pipeline :=
  let ll := JS.destructure2 (Str.split "," l) in
  distancesPipeline (rt E) (fst ll) (snd ll) (multiplierOf (params r !! "unit")).

(** A row of the distances response: the document with its distance field
    set to the scaled distance, cut down to the fields _id, distance, name. *)
Definition distanceRow (m : float) (row : doc * float) : doc :=
  List.filter
    (fun kv => String.eqb (fst kv) "_id" || String.eqb (fst kv) "distance"
               || String.eqb (fst kv) "name")
    (setField "distance" (VScalar (SDouble (PrimFloat.mul (snd row) m))) (fst row)).

(** The same request with its unit parameter replaced. *)
Definition withUnit (u : string) (r : request) : request :=
  withParams (<["unit" := u]> (params r)) r.

(** The filters of the [Tour.find] calls of a run, and its pipelines. *)
Definition finds (tr : list event) : list geoWithin :=
  omap (fun ev => match ev with Find q => Some q | _ => None end) tr.

Definition pipelines (tr : list event) : list pipeline :=
  omap (fun ev => match ev with Aggregate p => Some p | _ => None end) tr.

(** The responses sent during a run. *)
Definition sent (tr : list event) : list response :=
  omap (fun ev => match ev with Send rs => Some rs | _ => None end) tr.

(** The errors passed to [next] during a run. *)
Definition errors (tr : list event) : list Err.error :=
  omap (fun ev => match ev with Next (Some e) => Some e | _ => None end) tr.

End Obs.

Module AppObs.
Import Http App.

(** The limiter's refusal. *)
Definition limited : served :=
  {| resp := {| code := 429; body := Text (message limiterOpts) |};
     by_route := None |}.

Definition isLimited (o : served) : bool :=
  match body (resp o), by_route o with
  | Text m, None => (code (resp o) =? 429) && String.eqb m (message limiterOpts)
  | _, _ => false
  end.

(** The limiter lets the request through: it is not under /api, or fewer
    than [max] hits of its client are inside the window. *)
Definition admits (st : store) (r : request) : bool :=
  negb (mounted "/api" (path r))
  || (length (recent limiterOpts (arrival r) (hitsOf st (ip r))) <? max limiterOpts)%nat.

(** The store after the request: a hit is logged for a request under /api. *)
Definition logged (st : store) (r : request) : store :=
  if mounted "/api" (path r) then <[ip r := arrival r :: hitsOf st (ip r)]> st
  else st.

(** The error the body parser raises on the request, if any. *)
Definition parseError (C : config) (r : request) : option Err.error :=
  if isJson r then
    if (bodyLimit <? String.length (payload r))%nat then Some entityTooLarge
    else if String.eqb (payload r) "" || wellFormed C (payload r) then None
    else Some badJson
  else None.

(** public/ has a file for the request. *)
Definition isStatic (C : config) (r : request) : bool :=
  (String.eqb (method r) "GET" || String.eqb (method r) "HEAD")
  && publicFile C (path r).

(** The answer of the error handler to an error raised for the request. *)
Definition failed (C : config) (e : Err.error) (r : request) : served :=
  {| resp := globalErrorHandler (development C) e r; by_route := None |}.

Definition cantFind (r : request) : Err.error :=
  Err.AppError ("Can't find " ++ originalUrl r ++ " on this server!") 404.

(** The request as the sanitising layers hand it on: [req.query] rewritten
    by mongoSanitize, then xss, then hpp with the whitelist of app.js. *)
Definition sanitised (C : config) (r : request) : request :=
  withQuery
    (hppQuery C [ "duration"; "ratingsQuantity"; "ratingsAverage";
                  "maxGroupSize"; "difficulty"; "price" ]
       (xssQuery C (mongoSanitizeQuery C (query r))))
    r.

(** The first router, in mount order, with a route for the request. *)
Definition firstRoute (C : config) (r : request)
    : option (string * routeHandler) :=
  match routeOf "/api/v1/tours" (tourRouter C) r with
  | Some o => Some o
  | None =>
      match routeOf "/api/v1/users" (userRouter C) r with
      | Some o => Some o
      | None => routeOf "/api/v1/reviews" (reviewRouter C) r
      end
  end.

(** What the layers below the limiter do with the request. *)
Definition below_limiter (C : config) (r : request) : served :=
  match parseError C r with
  | Some e => failed C e r
  | None =>
      if isStatic C r
      then {| resp := {| code := 200; body := File (path r) |}; by_route := None |}
      else match firstRoute C r with
           | Some (h, handle) =>
               match handle (sanitised C r) with
               | inr rs => {| resp := rs; by_route := Some (h, sanitised C r) |}
               | inl e => failed C e r
               end
           | None => failed C (cantFind r) r
           end
  end.

(** The requests of a client under /api that arrived inside the window of
    [w] milliseconds ending at [T] and were not refused by the limiter,
    among the requests paired with what the server did with them. *)
Definition servedInWindow (w : Z) (client : string) (T : Z)
    (log : list (request * served)) : list (request * served) :=
  List.filter
    (fun ro => String.eqb (ip (fst ro)) client
               && mounted "/api" (path (fst ro))
               && (T - w <? arrival (fst ro))
               && (arrival (fst ro) <=? T)
               && negb (isLimited (snd ro)))
    log.

(** The hits of a client inside the window ending at [T] that the store
    remembers. *)
Definition hitsInWindow (st : store) (client : string) (T : Z) : nat :=
  length (recent limiterOpts T (hitsOf st client)).

(** The requests of one client, and the log entries of one client. *)
Definition ofClient (client : string) (rs : list request) : list request :=
  List.filter (fun r => String.eqb (ip r) client) rs.

Definition logOfClient (client : string) (log : list (request * served))
    : list (request * served) :=
  List.filter (fun ro => String.eqb (ip (fst ro)) client) log.

(** The earlier requests of the client of [r] under /api that are inside
    the window of [w] milliseconds ending at the arrival of [r]. *)
Definition earlierHits (w : Z) (pre : list request) (r : request) : list request :=
  List.filter
    (fun r' => String.eqb (ip r') (ip r) && mounted "/api" (path r')
               && (arrival r - w <? arrival r'))
    pre.

End AppObs.

(** ** Vocabulary of the rollups *)

Module Rollup.
Import Mongo Model.

(** The distinct elements of a list, in order of first occurrence. *)
Fixpoint distinct {A} (eqb : A -> A -> bool) (l : list A) : list A :=
  match l with
  | [] => []
  | x :: l' => x :: List.filter (fun y => negb (eqb y x)) (distinct eqb l')
  end.

(** *** Statistics by difficulty tier *)

Record TourStat := {
  tier : string;
  numTours : Q;
  numRatings : Q;
  avgRating : float;
  avgPrice : float;
  minPrice : float;
  maxPrice : float
}.

Definition rated (t : Tour) : bool := (4.5 <=? ratingsAverage t)%float.

Definition tierOf (t : Tour) : string := Str.toUpper (difficulty t).

(** The tiers of the tours rated 4.5 or more, and the members of a tier. *)
Definition tiers (ts : list Tour) : list string :=
  distinct String.eqb (List.map tierOf (List.filter rated ts)).

Definition tierMembers (k : string) (ts : list Tour) : list Tour :=
  List.filter (fun t => String.eqb (tierOf t) k) (List.filter rated ts).

Definition least (l : list float) : float :=
  match l with
  | [] => 0
  | q :: l' => dminimum q l'
  end.

Definition greatest (l : list float) : float :=
  match l with
  | [] => 0
  | q :: l' => dmaximum q l'
  end.

Definition statOf (k : string) (ms : list Tour) : TourStat :=
  {| tier := k;
     numTours := inject_Z (Z.of_nat (length ms));
     numRatings := Qsum (List.map ratingsQuantity ms);
     avgRating := davg (List.map ratingsAverage ms);
     avgPrice := davg (List.map price ms);
     minPrice := least (List.map price ms);
     maxPrice := greatest (List.map price ms) |}.

Definition statDoc (s : TourStat) : doc :=
  [ ("_id", VScalar (SStr (tier s)));
    ("numTours", VScalar (SNum (numTours s)));
    ("numRatings", VScalar (SNum (numRatings s)));
    ("avgRating", VScalar (SDouble (avgRating s)));
    ("avgPrice", VScalar (SDouble (avgPrice s)));
    ("minPrice", VScalar (SDouble (minPrice s)));
    ("maxPrice", VScalar (SDouble (maxPrice s))) ].

Definition tierStats (ts : list Tour) : list TourStat :=
  List.map (fun k => statOf k (tierMembers k ts)) (tiers ts).

(** *** Starts by month *)

Record MonthRow := {
  numTourStarts : Q;
  tours : list string;
  month : Z
}.

(** One entry per start date of each tour. *)
Definition starts (ts : list Tour) : list (Tour * Z) :=
  List.flat_map (fun t => List.map (fun d => (t, d)) (startDates t)) ts.

(** The document [$unwind] makes of one start date. *)
Definition startDoc (s : Tour * Z) : doc :=
  setField "startDates" (VScalar (SDate (snd s))) (toDoc (fst s)).

Definition between (lo hi : Z) (s : Tour * Z) : bool :=
  (lo <=? snd s) && (snd s <=? hi).

Definition monthOf (s : Tour * Z) : Z := Cal.month (snd s).

Definition months (lo hi : Z) (ts : list Tour) : list Z :=
  distinct Z.eqb (List.map monthOf (List.filter (between lo hi) (starts ts))).

Definition monthMembers (lo hi m : Z) (ts : list Tour) : list (Tour * Z) :=
  List.filter (fun s => monthOf s =? m) (List.filter (between lo hi) (starts ts)).

Definition rowOf (m : Z) (ms : list (Tour * Z)) : MonthRow :=
  {| numTourStarts := inject_Z (Z.of_nat (length ms));
     tours := List.map (fun s => name (fst s)) ms;
     month := m |}.

Definition rowDoc (r : MonthRow) : doc :=
  [ ("numTourStarts", VScalar (SNum (numTourStarts r)));
    ("tours", VArr (List.map SStr (tours r)));
    ("month", VScalar (SNum (inject_Z (month r)))) ].

Definition monthRows (lo hi : Z) (ts : list Tour) : list MonthRow :=
  List.map (fun m => rowOf m (monthMembers lo hi m ts)) (months lo hi ts).

End Rollup.

(** ** Vocabulary of the further properties *)

Module Further.
Import Mongo Http TourController App.

(** The string has a comma. *)
Fixpoint hasComma (s : string) : bool :=
  match s with
  | EmptyString => false
  | String c s' => Ascii.eqb c "," || hasComma s'
  end.

(** How often a run ends its request (a response sent, or an error passed
    to [next]), and how often it calls the database. *)
Definition endings (tr : list event) : nat :=
  length (Obs.sent tr) + length (Obs.errors tr).

Definition dbCalls (tr : list event) : nat :=
  length (Obs.finds tr) + length (Obs.pipelines tr).

(** A deployment whose tour router has the one route GET / and answers it
    with 200 and an empty list. *)
Definition listTours : router :=
  fun m rest =>
    if String.eqb m "GET" && String.eqb rest "/"
    then Some ("getAllTours",
               fun _ => inr {| code := 200;
                               body := Json (success (Some 0%nat) (Wrapped "data" [])) |})
    else None.

(** A parameter-pollution filter that keeps the last value of a repeated
    key that is not on the whitelist. *)
Definition lastValue (whitelist : list string) : queryFilter :=
  map_imap (fun k v =>
              match v with
              | QArr l =>
                  if existsb (String.eqb k) whitelist then Some v
                  else Some (QStr (List.last l ""))
              | _ => Some v
              end).

Definition toursOnly : config :=
  {| development := false; publicFile := fun _ => false; wellFormed := fun _ => true;
     mongoSanitizeQuery := fun q => q; xssQuery := fun q => q;
     hppQuery := lastValue;
     tourRouter := listTours; userRouter := fun _ _ => None;
     reviewRouter := fun _ _ => None |}.

End Further.

(** ** Sample tours, requests and deployments *)

Section Samples.
Import Mongo Model Http TourController App.

Definition forestHiker : Tour :=
  {| id := "5c88fa8cf4afda39709c2951"; name := "The Forest Hiker";
     difficulty := "easy"; ratingsAverage := 4.7%float; ratingsQuantity := 37%Q;
     price := 397%float;
     startDates := [Cal.utc 2021 4 25 + 9 * 3600000;
                    Cal.utc 2021 7 20 + 9 * 3600000;
                    Cal.utc 2021 10 5 + 9 * 3600000];
     startLocation := ((-1155706 # 10000)%Q, (511782 # 10000)%Q) |}.

Definition seaExplorer : Tour :=
  {| id := "5c88fa8cf4afda39709c2955"; name := "The Sea Explorer";
     difficulty := "Easy"; ratingsAverage := 4.8%float; ratingsQuantity := 6%Q;
     price := 497%float;
     startDates := [Cal.utc 2021 7 19 + 9 * 3600000;
                    Cal.utc 2021 7 28 + 9 * 3600000;
                    Cal.utc 2022 3 1 + 9 * 3600000];
     startLocation := ((-801281 # 10000)%Q, (257743 # 10000)%Q) |}.

Definition snowAdventurer : Tour :=
  {| id := "5c88fa8cf4afda39709c295a"; name := "The Snow Adventurer";
     difficulty := "difficult"; ratingsAverage := 4.5%float; ratingsQuantity := 13%Q;
     price := 997%float;
     startDates := [Cal.utc 2021 12 31 + 9 * 3600000];
     startLocation := ((-1068225 # 10000)%Q, (391911 # 10000)%Q) |}.

Definition cityWanderer : Tour :=
  {| id := "5c88fa8cf4afda39709c2961"; name := "The City Wanderer";
     difficulty := "medium"; ratingsAverage := 4.3%float; ratingsQuantity := 54%Q;
     price := 1197%float; startDates := [Cal.utc 2021 3 11 + 9 * 3600000];
     startLocation := ((-739856 # 10000)%Q, (407587 # 10000)%Q) |}.

(** The request /tours-within/200/center/45/unit/mi: a latitude and no
    longitude. *)
Definition noLongitude : request :=
  Ref.get "/api/v1/tours/tours-within/200/center/45/unit/mi"
    [("distance", "200"); ("latlng", "45"); ("unit", "mi")].

Definition within200mi : request :=
  Ref.get "/api/v1/tours/tours-within/200/center/34.1,-118.1/unit/mi"
    [("distance", "200"); ("latlng", "34.1,-118.1"); ("unit", "mi")].

Definition withinMiles : request :=
  Ref.get "/api/v1/tours/tours-within/200/center/34,118/unit/miles"
    [("distance", "200"); ("latlng", "34,118"); ("unit", "miles")].

Definition distancesMi : request :=
  Ref.get "/api/v1/tours/distances/34,118/unit/mi"
    [("latlng", "34,118"); ("unit", "mi")].

Definition plan2021 : request :=
  Ref.get "/api/v1/tours/monthly-plan/2021" [("year", "2021")].

(** A deployment with no file under public/ and no route. *)
Definition noRoutes (dev : bool) : config :=
  {| development := dev; publicFile := fun _ => false; wellFormed := fun _ => true;
     mongoSanitizeQuery := fun q => q; xssQuery := fun q => q;
     hppQuery := fun _ q => q;
     tourRouter := fun _ _ => None; userRouter := fun _ _ => None;
     reviewRouter := fun _ _ => None |}.

Fixpoint filler (n : nat) : string :=
  match n with
  | O => EmptyString
  | S n' => String "a" (filler n')
  end.

Definition nonexistent : request := Ref.get "/api/v1/nonexistent" [].

(** A POST to the same path with a JSON body of 10 KB and one byte. *)
Definition oversized : request :=
  {| method := "POST"; path := "/api/v1/nonexistent"; search := ""; ip := "10.0.0.1";
     arrival := 0; isJson := true; payload := filler (bodyLimit + 1);
     params := ∅; query := ∅ |}.

(** A GET of the tour list with a JSON body of 10 KB and one byte. *)
Definition oversizedList : request :=
  {| method := "GET"; path := "/api/v1/tours"; search := ""; ip := "10.0.0.1";
     arrival := 0; isJson := true; payload := filler (bodyLimit + 1);
     params := ∅; query := ∅ |}.


End Samples.

(** * Properties *)

Example split_pair : Str.split "," "34.1,-118.1" = ["34.1"; "-118.1"].
Proof. reflexivity. Qed.

Example split_one : JS.destructure2 (Str.split "," "45") = (Some "45", None).
Proof. reflexivity. Qed.

Example month_dec31 : Cal.month (Cal.utc 2021 12 31 + 9 * 3600000) = 12.
Proof. reflexivity. Qed.

Example year_dec31 : Cal.year (Cal.utc 2021 12 31 + 9 * 3600000) = 2021.
Proof. reflexivity. Qed.

Example ref_ToNumber : Ref.ToNumber "200" = 200%float.
Proof. reflexivity. Qed.

Example ref_yearStart :
  TourController.yearStart Ref.runtime (Ref.ToNumber "2021" * 1)%float
  = Some (Cal.utc 2021 1 1).
Proof. vm_compute. reflexivity. Qed.

Example ref_yearEnd :
  TourController.yearEnd Ref.runtime (Ref.ToNumber "2021" * 1)%float
  = Some (Cal.utc 2021 12 31).
Proof. vm_compute. reflexivity. Qed.

(** ** The handler monad *)

Section HandlerLaws.
Import Http.

Lemma run_bind_emit (ev : event) (k : handler unit) (s : hstate) :
  (emit ev ;; k) s = k {| req := req s; trace := trace s ++ [ev] |}.
Proof. reflexivity. Qed.

Lemma catchAsync_returned (fn : handler unit) (s s' : hstate) :
  fn s = (s', Returned tt) -> catchAsync fn s = (s', Returned tt).
Proof. intros H. unfold catchAsync. rewrite H. reflexivity. Qed.

Lemma catchAsync_threw (fn : handler unit) (s s' : hstate) (e : Err.error) :
  fn s = (s', Threw e) ->
  catchAsync fn s = ({| req := req s'; trace := trace s' ++ [Next (Some e)] |}, Returned tt).
Proof. intros H. unfold catchAsync. rewrite H. reflexivity. Qed.

End HandlerLaws.

(** ** aliasTopTours *)

Section AliasTopTours.
Import Http TourController Obs.

Lemma aliasTopTours_run (r : request) : run aliasTopTours r = [Next None].
Proof. reflexivity. Qed.

Lemma aliasTopTours_query (r : request) :
  query (finalReq aliasTopTours r)
  = <["fields" := QStr "name,price,ratingsAverage,summary,difficulty"]>
      (<["sort" := QStr "-ratingsAverage,price"]>
         (<["limit" := QStr "5"]> (query r))).
Proof. reflexivity. Qed.

Lemma aliasQuery_lookup (q : gmap string qval) (k : string) :
  aliasQuery q !! k
  = if decide (k = "fields") then Some (QStr "name,price,ratingsAverage,summary,difficulty")
    else if decide (k = "sort") then Some (QStr "-ratingsAverage,price")
    else if decide (k = "limit") then Some (QStr "5")
    else q !! k.
Proof.
  unfold aliasQuery.
  destruct (decide (k = "fields")) as [->|Hf]; [apply lookup_insert_eq|].
  rewrite lookup_insert_ne by congruence.
  destruct (decide (k = "sort")) as [->|Hs]; [apply lookup_insert_eq|].
  rewrite lookup_insert_ne by congruence.
  destruct (decide (k = "limit")) as [->|Hl]; [apply lookup_insert_eq|].
  rewrite lookup_insert_ne by congruence. reflexivity.
Qed.

Lemma aliasQuery_ignores (q : gmap string qval) (v1 v2 v3 : qval) :
  aliasQuery (<["limit" := v1]> (<["sort" := v2]> (<["fields" := v3]> q)))
  = aliasQuery q.
Proof.
  apply map_eq. intros k. rewrite !aliasQuery_lookup.
  repeat (case_decide; [reflexivity|]).
  rewrite !lookup_insert_ne by congruence. reflexivity.
Qed.

Lemma aliasTopTours_final (r : request) :
  finalReq aliasTopTours r = withQuery (aliasQuery (query r)) r.
Proof. reflexivity. Qed.

(** C10: aliasTopTours sets the query keys limit, sort and fields to '5',
    '-ratingsAverage,price' and 'name,price,ratingsAverage,summary,difficulty'
    whatever the client supplied for them, leaves every other query key and
    the rest of the request as they were, and calls next() once, without an
    error. *)
Theorem aliasTopTours_overwrites (r : request) :
  let r' := finalReq aliasTopTours r in
  query r' !! "limit" = Some (QStr "5")
  /\ query r' !! "sort" = Some (QStr "-ratingsAverage,price")
  /\ query r' !! "fields" = Some (QStr "name,price,ratingsAverage,summary,difficulty")
  /\ (forall k, k <> "limit" -> k <> "sort" -> k <> "fields" ->
        query r' !! k = query r !! k)
  /\ (forall v1 v2 v3,
        finalReq aliasTopTours
          (withQuery (<["limit" := v1]> (<["sort" := v2]> (<["fields" := v3]> (query r)))) r)
        = r')
  /\ r' = withQuery (query r') r
  /\ run aliasTopTours r = [Next None].
Proof.
  cbv zeta. rewrite !aliasTopTours_final. cbn [query withQuery].
  split; [|split; [|split; [|split; [|split; [|split]]]]].
  - rewrite aliasQuery_lookup. reflexivity.
  - rewrite aliasQuery_lookup. reflexivity.
  - rewrite aliasQuery_lookup. reflexivity.
  - intros k Hl Hs Hf. rewrite aliasQuery_lookup.
    repeat (case_decide; [congruence|]). reflexivity.
  - intros v1 v2 v3. rewrite aliasTopTours_final. unfold withQuery. cbn.
    f_equal. apply aliasQuery_ignores.
  - reflexivity.
  - reflexivity.
Qed.

Example aliasTopTours_client_limit :
  query (finalReq aliasTopTours
           (withQuery (<["limit" := QStr "1000"]> (<["page" := QStr "2"]> ∅))
              (Ref.get "/api/v1/tours/top-5-cheap" [])))
  = <["fields" := QStr "name,price,ratingsAverage,summary,difficulty"]>
      (<["sort" := QStr "-ratingsAverage,price"]>
         (<["limit" := QStr "5"]> (<["page" := QStr "2"]> ∅))).
Proof.
  rewrite aliasTopTours_query. cbn [query withQuery].
  apply map_eq. intros k. fold (aliasQuery (<["limit":=QStr "1000"]> (<["page":=QStr "2"]> ∅))).
  fold (aliasQuery (<["page" := QStr "2"]> (∅ : gmap string qval))).
  rewrite !aliasQuery_lookup. repeat (case_decide; [reflexivity|]).
  rewrite lookup_insert_ne by congruence. reflexivity.
Qed.

End AliasTopTours.

(** ** getToursWithin and getDistances *)

Section Geo.
Import Mongo Model Http TourController Obs.

(** Every run of getToursWithin: the guard's [next(err)] when the centre is
    incomplete, then, in every case, the query and what follows from its
    outcome. *)
Lemma getToursWithin_run (E : env) (r : request) (l : string) :
  params r !! "latlng" = Some l ->
  run (getToursWithin E) r
  = ((if centerGiven l then [] else [Next (Some latlngError)])
     ++ Find (withinQuery E r l)
        :: match within (drv E) (withinQuery E r l) (collection E) with
           | inr ds => [Send {| code := 200;
                                body := Json (success (Some (length ds)) (Bare ds)) |}]
           | inl e => [Next (Some e)]
           end)%list.
Proof.
  intros Hl. unfold run, getToursWithin, catchAsync, centerGiven, withinQuery.
  unfold mbind, handler_bind, getReq. cbn [req trace fst snd].
  rewrite Hl. cbn [splitLatLng]. unfold mret, handler_ret.
  destruct (JS.falsy _ || JS.falsy _); cbn [when negb];
    unfold nextErr, Tour_find, emit, mbind, handler_bind; cbn;
    destruct (within _ _ _); reflexivity.
Qed.


Lemma getToursWithin_guard_falls_through (E : env) (r : request) (l : string) :
  params r !! "latlng" = Some l ->
  centerGiven l = false ->
  exists rest,
    run (getToursWithin E) r
    = Next (Some latlngError) :: Find (withinQuery E r l) :: rest.
Proof.
  intros Hl Hc. rewrite (getToursWithin_run E r l Hl), Hc. cbn. eauto.
Qed.

(** C1 (the code departs from the claim): on a request whose latlng has no
    longitude, getToursWithin passes the 400 error to next and then, instead
    of halting, runs the geo query; when the query resolves it also sends a
    200 success response, and when it rejects it calls next a second time. *)
Theorem getToursWithin_missing_lng_not_halted (E : env) :
  run (getToursWithin E) noLongitude
  = Next (Some (Err.AppError
                  "Please provide latitude and longitude in the format lat,lng." 400))
    :: Find {| gw_field := "startLocation"; gw_center := (None, Some "45");
               gw_radius := (JS.ToNumber (rt E) "200" / 3963.2)%float |}
    :: match within (drv E)
               {| gw_field := "startLocation"; gw_center := (None, Some "45");
                  gw_radius := (JS.ToNumber (rt E) "200" / 3963.2)%float |}
               (collection E) with
       | inr ds => [Send {| code := 200;
                            body := Json (success (Some (length ds)) (Bare ds)) |}]
       | inl e => [Next (Some e)]
       end.
Proof.
  rewrite (getToursWithin_run E noLongitude "45") by reflexivity.
  reflexivity.
Qed.

(** C2: the radius of the $centerSphere filter that getToursWithin hands to
    Tour.find is the distance divided by 3963.2 when unit is 'mi' and by
    6378.1 when unit is 'km', and that filter is the only query of the run;
    with distance 200 the radii are 200/3963.2 and 200/6378.1. *)
Theorem getToursWithin_radius (E : env) (r : request) (d l : string) :
  params r !! "distance" = Some d ->
  params r !! "latlng" = Some l ->
  (params r !! "unit" = Some "mi" ->
     finds (run (getToursWithin E) r) = [withinQuery E r l]
     /\ gw_radius (withinQuery E r l) = (JS.ToNumber (rt E) d / 3963.2)%float)
  /\ (params r !! "unit" = Some "km" ->
     finds (run (getToursWithin E) r) = [withinQuery E r l]
     /\ gw_radius (withinQuery E r l) = (JS.ToNumber (rt E) d / 6378.1)%float)
  /\ (JS.ToNumber (rt E) d = 200%float ->
      (params r !! "unit" = Some "mi" ->
         gw_radius (withinQuery E r l) = (200 / 3963.2)%float)
      /\ (params r !! "unit" = Some "km" ->
         gw_radius (withinQuery E r l) = (200 / 6378.1)%float)).
Proof.
  intros Hd Hl.
  assert (Hf : finds (run (getToursWithin E) r) = [withinQuery E r l]).
  { rewrite (getToursWithin_run E r l Hl).
    destruct (centerGiven l); cbn; destruct (within _ _ _); reflexivity. }
  assert (Hr : forall u, params r !! "unit" = Some u ->
            gw_radius (withinQuery E r l)
            = if String.eqb u "mi" then (JS.ToNumber (rt E) d / 3963.2)%float
              else (JS.ToNumber (rt E) d / 6378.1)%float).
  { intros u Hu. unfold withinQuery, radiusOf. cbn [gw_radius].
    rewrite Hd, Hu. reflexivity. }
  split; [|split].
  - intros Hu. split; [exact Hf | exact (Hr _ Hu)].
  - intros Hu. split; [exact Hf | exact (Hr _ Hu)].
  - intros H200. rewrite <- H200.
    split; intros Hu; exact (Hr _ Hu).
Qed.

Lemma getToursWithin_radius_witness :
  finds (run (getToursWithin (Ref.env [])) within200mi)
  = [withinQuery (Ref.env []) within200mi "34.1,-118.1"]
  /\ gw_radius (withinQuery (Ref.env []) within200mi "34.1,-118.1")
     = (200 / 3963.2)%float.
Proof.
  exact (proj1 (getToursWithin_radius (Ref.env []) within200mi "200" "34.1,-118.1"
                  eq_refl eq_refl) eq_refl).
Defined.

Lemma getDistances_run (E : env) (r : request) (l : string) :
  params r !! "latlng" = Some l ->
  run (getDistances E) r
  = ((if centerGiven l then [] else [Next (Some latlngError)])
     ++ Aggregate (distancesQuery E r l)
        :: match aggregate (drv E) (distancesQuery E r l) (collection E) with
           | Some ds => [Send {| code := 200;
                                 body := Json (success None (Wrapped "data" ds)) |}]
           | None => [Next (Some driverError)]
           end)%list.
Proof.
  intros Hl. unfold run, getDistances, catchAsync, centerGiven, distancesQuery.
  unfold mbind, handler_bind, getReq. cbn [req trace fst snd].
  rewrite Hl. cbn [splitLatLng]. unfold mret, handler_ret.
  destruct (JS.falsy _ || JS.falsy _); cbn [when negb];
    unfold nextErr, Tour_aggregate, emit, mbind, handler_bind;
    cbn -[aggregate distancesPipeline];
    destruct (aggregate _ _ _); reflexivity.
Qed.

Lemma project_distance_name (d : doc) :
  project [("distance", true); ("name", true)] d
  = Some (List.filter
            (fun kv => String.eqb (fst kv) "_id" || String.eqb (fst kv) "distance"
                       || String.eqb (fst kv) "name") d).
Proof.
  unfold project. cbn [existsb snd fst negb andb orb]. f_equal.
  apply filter_ext. intros [k v]. unfold listed. cbn -[String.eqb].
  rewrite (String.eqb_sym "distance" k), (String.eqb_sym "name" k).
  destruct (String.eqb k "_id"), (String.eqb k "distance"), (String.eqb k "name");
    reflexivity.
Qed.

Lemma mapM_total {A B} (f : A -> option B) (g : A -> B) (l : list A) :
  (forall x, f x = Some (g x)) -> mapM f l = Some (List.map g l).
Proof.
  intros H. induction l as [|a l IH]; [reflexivity|].
  cbn. rewrite H. cbn. rewrite IH. reflexivity.
Qed.

(** The distances pipeline over any collection. *)
Lemma aggregate_distances (E : env) (r : request) (l : string) :
  aggregate (drv E) (distancesQuery E r l) (collection E)
  = if validPoint (nearPoint E l)
    then Some (List.map (distanceRow (multiplierOf (params r !! "unit")))
                 (merge_sort nearer
                    (omap (located (drv E) (nearPoint E l)) (collection E))))
    else None.
Proof.
  unfold distancesQuery, distancesPipeline, nearPoint. cbn [aggregate runStage].
  unfold geoNear. destruct (validPoint _); [|reflexivity].
  cbn. rewrite (mapM_total _ _ _ project_distance_name). cbn.
  rewrite List.map_map. reflexivity.
Qed.

(** Every tour document is in an index on startLocation. *)
Lemma located_tours (D : driver) (near : float * float) (ts : list Tour) :
  geoKey D = "startLocation" ->
  omap (located D near) (List.map toDoc ts)
  = List.map (fun t => (toDoc t, metres D near (startLocation t))) ts.
Proof.
  intros Hk. induction ts as [|t ts IH]; [reflexivity|].
  cbn [List.map omap list_omap]. rewrite IH.
  unfold located at 1. rewrite Hk. cbn. destruct (startLocation t). reflexivity.
Qed.

(** C6 (as amended): when latlng gives both a latitude and a longitude that
    make a point, getDistances sends 200 with exactly one row for each
    tour document; the row holds the tour's _id, its name and, as
    distance, its distance in metres from the centre times 0.000621371
    for unit 'mi' and times 0.001 for unit 'km', and no other field. *)
Theorem getDistances_rows (R : JS.runtime) (D : driver) (ts : list Tour)
    (r : request) (l : string) :
  let E := {| rt := R; drv := D; collection := List.map toDoc ts |} in
  let m := multiplierOf (params r !! "unit") in
  params r !! "latlng" = Some l ->
  centerGiven l = true ->
  validPoint (nearPoint E l) = true ->
  geoKey D = "startLocation" ->
  (exists ts' : list Tour,
     Permutation ts' ts
     /\ run (getDistances E) r
        = [ Aggregate (distancesQuery E r l);
            Send {| code := 200;
                    body := Json (success None (Wrapped "data"
                              (List.map
                                 (fun t =>
                                    [ ("_id", VScalar (SId (id t)));
                                      ("name", VScalar (SStr (name t)));
                                      ("distance",
                                       VScalar (SDouble
                                         (metres D (nearPoint E l) (startLocation t) * m)%float)) ])
                                 ts'))) |} ])
  /\ (params r !! "unit" = Some "mi" -> m = 0.000621371%float)
  /\ (params r !! "unit" = Some "km" -> m = 0.001%float).
Proof.
  intros E m Hl Hc Hv Hk. split; [|split].
  - pose proof (merge_sort_Permutation nearer
                  (List.map (fun t => (toDoc t, metres D (nearPoint E l) (startLocation t)))
                     ts)) as HP.
    apply Permutation_map_inv in HP. destruct HP as [ts' [Heq HP]].
    exists ts'. split; [symmetry; exact HP|].
    rewrite (getDistances_run E r l Hl), Hc, aggregate_distances, Hv.
    cbn [drv collection]. rewrite (located_tours D _ ts Hk).
    fold E. rewrite Heq, List.map_map. reflexivity.
  - intros Hu. unfold m. rewrite Hu. reflexivity.
  - intros Hu. unfold m. rewrite Hu. reflexivity.
Qed.

Lemma getDistances_rows_witness :
  exists ts' : list Tour,
    Permutation ts' [forestHiker]
    /\ run (getDistances (Ref.env [forestHiker])) distancesMi
       = [ Aggregate (distancesQuery (Ref.env [forestHiker]) distancesMi "34,118");
           Send {| code := 200;
                   body := Json (success None (Wrapped "data"
                             (List.map
                                (fun t =>
                                   [ ("_id", VScalar (SId (id t)));
                                     ("name", VScalar (SStr (name t)));
                                     ("distance",
                                      VScalar (SDouble (1000 * 0.000621371)%float)) ])
                                ts'))) |} ].
Proof.
  exact (proj1 (getDistances_rows Ref.runtime Ref.driver [forestHiker] distancesMi
                  "34,118" eq_refl eq_refl eq_refl eq_refl)).
Defined.

(** C6 (the claim as stated fails): the one row returned for a one-tour
    collection carries the field _id besides name and distance. *)
Lemma getDistances_row_has_id :
  sent (run (getDistances (Ref.env [forestHiker])) distancesMi)
  = [ {| code := 200;
         body := Json (success None (Wrapped "data"
                   [ [ ("_id", VScalar (SId "5c88fa8cf4afda39709c2951"));
                       ("name", VScalar (SStr "The Forest Hiker"));
                       ("distance", VScalar (SDouble (1000 * 0.000621371)%float)) ] ])) |} ]
  /\ ~ (forall f, In f (fieldNames
                          [ ("_id", VScalar (SId "5c88fa8cf4afda39709c2951"));
                            ("name", VScalar (SStr "The Forest Hiker"));
                            ("distance", VScalar (SDouble (1000 * 0.000621371)%float)) ]) ->
                  f = "distance" \/ f = "name").
Proof.
  split.
  - rewrite (getDistances_run _ distancesMi "34,118") by reflexivity.
    rewrite aggregate_distances. reflexivity.
  - intros H. destruct (H "_id") as [H'|H']; [left; reflexivity | |]; discriminate H'.
Qed.

Lemma isMi_other (u : string) : u <> "mi" -> isMi (Some u) = false.
Proof. intros H. cbn. apply String.eqb_neq. exact H. Qed.

Lemma withUnit_param (u k : string) (r : request) :
  k <> "unit" -> params (withUnit u r) !! k = params r !! k.
Proof. intros H. cbn. apply lookup_insert_ne. congruence. Qed.

Lemma withUnit_unit (u : string) (r : request) :
  params (withUnit u r) !! "unit" = Some u.
Proof. cbn. apply lookup_insert_eq. Qed.

(** C9: for a unit other than the exact string 'mi', getToursWithin queries
    with radius distance/6378.1 and getDistances aggregates with multiplier
    0.001; neither rejects the unit: each run is, event for event, the run
    of the same request with unit 'km'. *)
Theorem unit_other_than_mi_is_km (E : env) (r : request) (u l : string) :
  params r !! "unit" = Some u ->
  u <> "mi" ->
  params r !! "latlng" = Some l ->
  gw_radius (withinQuery E r l)
    = (JS.toNumber (rt E) (params r !! "distance") / 6378.1)%float
  /\ finds (run (getToursWithin E) r) = [withinQuery E r l]
  /\ pipelines (run (getDistances E) r)
     = [ distancesPipeline (rt E) (fst (JS.destructure2 (Str.split "," l)))
           (snd (JS.destructure2 (Str.split "," l))) 0.001%float ]
  /\ run (getToursWithin E) r = run (getToursWithin E) (withUnit "km" r)
  /\ run (getDistances E) r = run (getDistances E) (withUnit "km" r).
Proof.
  intros Hu Hne Hl.
  assert (Hkm : params (withUnit "km" r) !! "latlng" = Some l)
    by (rewrite withUnit_param by discriminate; exact Hl).
  assert (Hq : withinQuery E (withUnit "km" r) l = withinQuery E r l).
  { unfold withinQuery, radiusOf. rewrite withUnit_unit, Hu, (isMi_other u Hne).
    rewrite withUnit_param by discriminate. reflexivity. }
  assert (Hp : distancesQuery E (withUnit "km" r) l = distancesQuery E r l).
  { unfold distancesQuery, multiplierOf.
    rewrite withUnit_unit, Hu, (isMi_other u Hne). reflexivity. }
  split; [|split; [|split; [|split]]].
  - unfold withinQuery, radiusOf. cbn [gw_radius].
    rewrite Hu, (isMi_other u Hne). reflexivity.
  - rewrite (getToursWithin_run E r l Hl).
    destruct (centerGiven l); cbn; destruct (within _ _ _); reflexivity.
  - rewrite (getDistances_run E r l Hl).
    assert (Hd : distancesQuery E r l
                 = distancesPipeline (rt E) (fst (JS.destructure2 (Str.split "," l)))
                     (snd (JS.destructure2 (Str.split "," l))) 0.001%float).
    { unfold distancesQuery, multiplierOf. rewrite Hu, (isMi_other u Hne). reflexivity. }
    rewrite <- Hd.
    destruct (centerGiven l); cbn -[aggregate distancesQuery];
      destruct (aggregate _ _ _); reflexivity.
  - rewrite (getToursWithin_run E r l Hl), (getToursWithin_run E _ l Hkm), Hq.
    reflexivity.
  - rewrite (getDistances_run E r l Hl), (getDistances_run E _ l Hkm), Hp.
    reflexivity.
Qed.

Lemma unit_other_than_mi_is_km_witness :
  gw_radius (withinQuery (Ref.env [forestHiker]) withinMiles "34,118")
    = (200 / 6378.1)%float
  /\ finds (run (getToursWithin (Ref.env [forestHiker])) withinMiles)
     = [withinQuery (Ref.env [forestHiker]) withinMiles "34,118"].
Proof.
  pose proof (unit_other_than_mi_is_km (Ref.env [forestHiker]) withinMiles
                "miles" "34,118" eq_refl ltac:(discriminate) eq_refl) as H.
  exact (conj (proj1 H) (proj1 (proj2 H))).
Defined.

End Geo.

(** ** The application *)

Section Application.
Import Http App AppObs Further.

Lemma dispatch_pass (mount : string) (ls : list layer) (st : store) (r : request) :
  dispatch (Use mount passThrough :: ls) st r = dispatch ls st r.
Proof. cbn. destruct (mounted mount (path r)); reflexivity. Qed.

Lemma dispatch_root (m : middleware) (ls : list layer) (st : store) (r : request) :
  dispatch (Use "/" m :: ls) st r = settle ls r (dispatch ls) (m st r).
Proof. reflexivity. Qed.

Lemma dispatch_rewrite (f : queryFilter) (ls : list layer) (st : store) (r : request) :
  dispatch (Use "/" (rewriteQuery f) :: ls) st r
  = dispatch ls st (withQuery (f (query r)) r).
Proof. reflexivity. Qed.

Lemma dispatch_router (mount : string) (rt : router) (ls : list layer)
    (st : store) (r : request) :
  dispatch (Use mount (routerMw mount rt) :: ls) st r
  = match routeOf mount rt r with
    | Some (h, handle) =>
        match handle r with
        | inr rs => (st, {| resp := rs; by_route := Some (h, r) |})
        | inl e => (st, {| resp := dispatchError ls e r; by_route := None |})
        end
    | None => dispatch ls st r
    end.
Proof.
  cbn [dispatch]. unfold mounted, routerMw, routeOf.
  destruct (below mount (path r)) as [rest|]; [|reflexivity].
  destruct (rt (method r) rest) as [[h handle]|]; [|reflexivity].
  destruct (handle r) as [e|rs]; reflexivity.
Qed.

(** The routers, the catch-all and the error handler. *)
Lemma dispatch_routes (C : config) (st : store) (r : request) :
  dispatch [ Use "/api/v1/tours" (routerMw "/api/v1/tours" (tourRouter C));
             Use "/api/v1/users" (routerMw "/api/v1/users" (userRouter C));
             Use "/api/v1/reviews" (routerMw "/api/v1/reviews" (reviewRouter C));
             All catchAll;
             UseError (globalErrorHandler (development C)) ] st r
  = (st, match firstRoute C r with
         | Some (h, handle) =>
             match handle r with
             | inr rs => {| resp := rs; by_route := Some (h, r) |}
             | inl e => failed C e r
             end
         | None => failed C (cantFind r) r
         end).
Proof.
  rewrite dispatch_router. unfold firstRoute.
  destruct (routeOf "/api/v1/tours" _ r) as [[h handle]|];
    [destruct (handle r); reflexivity|].
  rewrite dispatch_router.
  destruct (routeOf "/api/v1/users" _ r) as [[h handle]|];
    [destruct (handle r); reflexivity|].
  rewrite dispatch_router.
  destruct (routeOf "/api/v1/reviews" _ r) as [[h handle]|];
    [destruct (handle r); reflexivity|reflexivity].
Qed.

(** The sanitising layers, the static files and what follows. *)
Lemma dispatch_sanitised (C : config) (st : store) (r : request) :
  dispatch [ Use "/" (mongoSanitize (mongoSanitizeQuery C));
             Use "/" (xss (xssQuery C));
             Use "/" (hpp (hppQuery C)
                        [ "duration"; "ratingsQuantity"; "ratingsAverage";
                          "maxGroupSize"; "difficulty"; "price" ]);
             Use "/" (static (publicFile C));
             Use "/" logHello;
             Use "/" setRequestTime;
             Use "/api/v1/tours" (routerMw "/api/v1/tours" (tourRouter C));
             Use "/api/v1/users" (routerMw "/api/v1/users" (userRouter C));
             Use "/api/v1/reviews" (routerMw "/api/v1/reviews" (reviewRouter C));
             All catchAll;
             UseError (globalErrorHandler (development C)) ] st r
  = (st, if isStatic C r
         then {| resp := {| code := 200; body := File (path r) |}; by_route := None |}
         else match firstRoute C r with
              | Some (h, handle) =>
                  match handle (sanitised C r) with
                  | inr rs => {| resp := rs; by_route := Some (h, sanitised C r) |}
                  | inl e => failed C e r
                  end
              | None => failed C (cantFind r) r
              end).
Proof.
  unfold mongoSanitize, xss, hpp. rewrite !dispatch_rewrite.
  change (withQuery _ (withQuery _ (withQuery _ r))) with (sanitised C r).
  rewrite dispatch_root. unfold static.
  change (isStatic C r) with
    ((String.eqb (method (sanitised C r)) "GET"
      || String.eqb (method (sanitised C r)) "HEAD")
     && publicFile C (path (sanitised C r))).
  destruct (_ && _); [reflexivity|].
  cbn [settle]. rewrite !dispatch_pass. rewrite dispatch_routes. reflexivity.
Qed.

(** The layers below the limiter leave the store alone. *)
Lemma dispatch_below_limiter (C : config) (st : store) (r : request) :
  dispatch [ Use "/" (expressJson bodyLimit (wellFormed C));
             Use "/" (mongoSanitize (mongoSanitizeQuery C));
             Use "/" (xss (xssQuery C));
             Use "/" (hpp (hppQuery C)
                        [ "duration"; "ratingsQuantity"; "ratingsAverage";
                          "maxGroupSize"; "difficulty"; "price" ]);
             Use "/" (static (publicFile C));
             Use "/" logHello;
             Use "/" setRequestTime;
             Use "/api/v1/tours" (routerMw "/api/v1/tours" (tourRouter C));
             Use "/api/v1/users" (routerMw "/api/v1/users" (userRouter C));
             Use "/api/v1/reviews" (routerMw "/api/v1/reviews" (reviewRouter C));
             All catchAll;
             UseError (globalErrorHandler (development C)) ] st r
  = (st, below_limiter C r).
Proof.
  rewrite dispatch_root. unfold below_limiter, parseError, expressJson.
  destruct (isJson r).
  - destruct (bodyLimit <? String.length (payload r))%nat; [reflexivity|].
    destruct (String.eqb (payload r) "" || wellFormed C (payload r)); [|reflexivity].
    cbn [settle]. apply dispatch_sanitised.
  - cbn [settle]. apply dispatch_sanitised.
Qed.

(** The whole stack, read off layer by layer. *)
Lemma app_unfold (C : config) (st : store) (r : request) :
  app C st r
  = (logged st r, if admits st r then below_limiter C r else limited).
Proof.
  unfold app, stack, logged, admits.
  assert (H : forall ls, dispatch (Use "/" helmet
                 :: (if development C then [Use "/" morgan] else []) ++ ls) st r
              = dispatch ls st r).
  { intros ls. rewrite dispatch_pass. destruct (development C); [|reflexivity].
    apply dispatch_pass. }
  change ([Use "/" helmet] ++ ?a ++ ?b)%list with (Use "/" helmet :: a ++ b)%list.
  rewrite H. cbn [dispatch].
  destruct (mounted "/api" (path r)); cbn [negb orb].
  - unfold limiter, rateLimit.
    destruct (_ <? _)%nat; cbn [settle]; [|reflexivity].
    apply dispatch_below_limiter.
  - apply dispatch_below_limiter.
Qed.

Lemma firstRoute_unmatched (C : config) (r : request) :
  matchesRoute C r = false -> firstRoute C r = None.
Proof.
  unfold matchesRoute, firstRoute.
  destruct (routeOf "/api/v1/tours" _ r); [discriminate|].
  destruct (routeOf "/api/v1/users" _ r); [discriminate|].
  destruct (routeOf "/api/v1/reviews" _ r); [discriminate|reflexivity].
Qed.

(** C5 (as amended): a request that the rate limiter admits, whose body the
    parser accepts, and that matches no file under public/ and no mounted
    route, is answered 404 with a fail envelope whose message is
    Can't find <originalUrl> on this server!, and no route handler runs. *)
Theorem unmatched_route_404 (C : config) (st : store) (r : request) :
  admits st r = true ->
  parseError C r = None ->
  isStatic C r = false ->
  matchesRoute C r = false ->
  snd (app C st r)
  = {| resp := {| code := 404;
                  body := Json (failure "fail"
                                  ("Can't find " ++ originalUrl r ++ " on this server!")
                                  (if development C then Some (cantFind r) else None)) |};
       by_route := None |}.
Proof.
  intros Ha Hp Hs Hm. rewrite app_unfold, Ha. cbn [snd].
  unfold below_limiter. rewrite Hp, Hs, (firstRoute_unmatched C r Hm).
  unfold failed, globalErrorHandler, cantFind. cbn.
  destruct (development C); reflexivity.
Qed.

Lemma unmatched_route_404_witness :
  snd (app (noRoutes false) ∅ nonexistent)
  = {| resp := {| code := 404;
                  body := Json (failure "fail"
                                  "Can't find /api/v1/nonexistent on this server!" None) |};
       by_route := None |}.
Proof.
  exact (unmatched_route_404 (noRoutes false) ∅ nonexistent
           eq_refl eq_refl eq_refl eq_refl).
Defined.

(** C5 (the claim as stated fails): a request that matches no mounted route
    and carries a JSON body over the cap is answered by the error handler
    for the parser's failure, not with the 404 envelope. *)
Lemma unmatched_route_oversized_not_404 :
  matchesRoute (noRoutes false) oversized = false
  /\ snd (app (noRoutes false) ∅ oversized)
     = {| resp := {| code := 500;
                     body := Json (failure "error" genericMessage None) |};
          by_route := None |}
  /\ code (resp (snd (app (noRoutes false) ∅ oversized))) <> 404.
Proof.
  assert (H : snd (app (noRoutes false) ∅ oversized)
              = {| resp := {| code := 500;
                              body := Json (failure "error" genericMessage None) |};
                   by_route := None |}).
  { rewrite app_unfold. vm_compute. reflexivity. }
  split; [reflexivity|]. split; [exact H|]. rewrite H. discriminate.
Qed.

Lemma below_limiter_route (C : config) (r : request) (h : string) (r' : request) :
  by_route (below_limiter C r) = Some (h, r') ->
  r' = sanitised C r /\ parseError C r = None /\ isStatic C r = false
  /\ firstRoute C r <> None.
Proof.
  unfold below_limiter. destruct (parseError C r); [discriminate|].
  destruct (isStatic C r); [discriminate|].
  destruct (firstRoute C r) as [[h' handle]|]; [|discriminate].
  destruct (handle (sanitised C r)) as [e|rs]; cbn; [discriminate|].
  intros [= _ <-]. repeat split; discriminate.
Qed.

Lemma parseError_none_size (C : config) (r : request) :
  parseError C r = None ->
  (String.length (observedBody r) <= bodyLimit)%nat.
Proof.
  unfold parseError, observedBody. destruct (isJson r); [|cbn; lia].
  destruct (bodyLimit <? String.length (payload r))%nat eqn:Hlt; [discriminate|].
  intros _. apply Nat.ltb_ge in Hlt. exact Hlt.
Qed.

(** C8 (as amended): a request that the rate limiter admits and whose JSON
    body is over the 10 KB cap (10 * 1024 bytes) is rejected by the body
    parser: what is answered is the error handler's rendering of the
    parser's 413 error, and no route handler runs, whatever route the
    request matches; and whatever request a route handler does run on, its
    body is at most 10 KB. *)
Theorem oversized_body_rejected (C : config) (st : store) (r : request) :
  admits st r = true ->
  isJson r = true ->
  (10 * 1024 < String.length (payload r))%nat ->
  snd (app C st r)
  = {| resp := globalErrorHandler (development C)
                 {| Err.message := "request entity too large";
                    Err.statusCode := Some 413;
                    Err.status := None; Err.isOperational := false |} r;
       by_route := None |}
  /\ (forall C' st' r' h r'',
        by_route (snd (app C' st' r')) = Some (h, r'') ->
        (String.length (observedBody r'') <= 10 * 1024)%nat).
Proof.
  intros Ha Hj Hsz. split.
  - change (10 * 1024)%nat with bodyLimit in Hsz. apply Nat.ltb_lt in Hsz.
    rewrite app_unfold, Ha. cbn [snd].
    unfold below_limiter, parseError. rewrite Hj, Hsz. reflexivity.
  - intros C' st' r' h r'' H. rewrite app_unfold in H. cbn [snd] in H.
    destruct (admits st' r'); [|discriminate].
    apply below_limiter_route in H. destruct H as [-> [Hp _]].
    change (10 * 1024)%nat with bodyLimit.
    exact (parseError_none_size C' r' Hp).
Qed.

Lemma oversized_body_rejected_witness :
  matchesRoute toursOnly oversizedList = true
  /\ snd (app toursOnly ∅ oversizedList)
     = {| resp := {| code := 500;
                     body := Json (failure "error" genericMessage None) |};
          by_route := None |}.
Proof.
  assert (Hsz : (10 * 1024 < String.length (payload oversizedList))%nat)
    by (vm_compute; lia).
  exact (conj eq_refl
           (proj1 (oversized_body_rejected toursOnly ∅ oversizedList
                     eq_refl eq_refl Hsz))).
Defined.

(** C8 (the claim as stated fails): the 101st request of a client within
    the hour, which matches a route and carries a JSON body over the cap,
    is not rejected by the body parser: the rate limiter, registered before
    it, answers 429 with its own message. *)
Lemma oversized_body_limited :
  isJson oversizedList = true
  /\ (10 * 1024 < String.length (payload oversizedList))%nat
  /\ matchesRoute toursOnly oversizedList = true
  /\ last (responses toursOnly (List.repeat oversizedList 101))
     = Some {| resp := {| code := 429;
                          body :=
                            Text "Too many requests from this IP, please try again in an hour!" |};
               by_route := None |}
  /\ last (responses toursOnly (List.repeat oversizedList 101))
     <> Some (failed toursOnly entityTooLarge oversizedList).
Proof.
  assert (H : last (responses toursOnly (List.repeat oversizedList 101))
              = Some {| resp := {| code := 429;
                                   body :=
                                     Text "Too many requests from this IP, please try again in an hour!" |};
                        by_route := None |})
    by (vm_compute; reflexivity).
  split; [reflexivity|]. split; [vm_compute; lia|]. split; [reflexivity|].
  split; [exact H|]. rewrite H. discriminate.
Qed.

(** *** The rate limiter over a sequence of requests *)

Lemma serve_cons (C : config) (st : store) (r : request) (rs : list request) :
  serve C st (r :: rs)
  = (fst (serve C (logged st r) rs),
     (if admits st r then below_limiter C r else limited)
       :: snd (serve C (logged st r) rs)).
Proof.
  cbn [serve]. rewrite app_unfold.
  destruct (serve C (logged st r) rs) as [st2 os]. reflexivity.
Qed.

Lemma hitsOf_logged (st : store) (r : request) (client : string) :
  hitsOf (logged st r) client
  = if mounted "/api" (path r) && String.eqb (ip r) client
    then arrival r :: hitsOf st client
    else hitsOf st client.
Proof.
  unfold logged, hitsOf. destruct (mounted "/api" (path r)); [|reflexivity].
  cbn [andb]. destruct (String.eqb (ip r) client) eqn:He.
  - apply String.eqb_eq in He. subst client. unfold store in *.
    rewrite lookup_insert_eq. reflexivity.
  - apply String.eqb_neq in He. unfold store in *.
    rewrite lookup_insert_ne by exact He. reflexivity.
Qed.

Lemma admits_hits (st st' : store) (r : request) :
  hitsOf st (ip r) = hitsOf st' (ip r) -> admits st r = admits st' r.
Proof. intros H. unfold admits. rewrite H. reflexivity. Qed.

Lemma isLimited_limited : isLimited limited = true.
Proof. reflexivity. Qed.

Lemma filter_length_mono {A} (p q : A -> bool) (l : list A) :
  (forall x, p x = true -> q x = true) ->
  (length (List.filter p l) <= length (List.filter q l))%nat.
Proof.
  intros H. induction l as [|a l IH]; [reflexivity|].
  cbn. destruct (p a) eqn:Hp.
  - rewrite (H a Hp). cbn. lia.
  - destruct (q a); cbn; lia.
Qed.

Lemma filter_cons_length {A} (p : A -> bool) (x : A) (l : list A) :
  length (List.filter p (x :: l))
  = ((if p x then 1 else 0) + length (List.filter p l))%nat.
Proof. cbn. destruct (p x); reflexivity. Qed.

Lemma recent_mono (t T : Z) (hits : list Z) :
  t <= T ->
  (length (recent limiterOpts T hits) <= length (recent limiterOpts t hits))%nat.
Proof.
  intros Hle. apply filter_length_mono. intros h Hh.
  apply Z.ltb_lt in Hh. apply Z.ltb_lt. lia.
Qed.

(** What the store remembers only grows. *)
Lemma hitsInWindow_logged (st : store) (r : request) (client : string) (T : Z) :
  hitsInWindow (logged st r) client T
  = ((if mounted "/api" (path r) && String.eqb (ip r) client
         && (T - windowMs limiterOpts <? arrival r)%Z
      then 1 else 0) + hitsInWindow st client T)%nat.
Proof.
  unfold hitsInWindow. rewrite hitsOf_logged.
  destruct (mounted "/api" (path r) && String.eqb (ip r) client); [|reflexivity].
  cbn [andb recent List.filter]. destruct (T - windowMs limiterOpts <? arrival r);
    reflexivity.
Qed.

(** The invariant behind the cap: what is served inside a window fits in
    the room the remembered hits leave. *)
Lemma serve_window (C : config) (client : string) (T : Z) (rs : list request) :
  forall st,
    (length (servedInWindow (windowMs limiterOpts) client T
               (List.combine rs (snd (serve C st rs))))
     <= max limiterOpts - hitsInWindow st client T)%nat.
Proof.
  induction rs as [|r rs IH]; intros st; [cbn; lia|].
  rewrite serve_cons. cbn [snd List.combine].
  specialize (IH (logged st r)). rewrite hitsInWindow_logged in IH.
  unfold servedInWindow in *. rewrite filter_cons_length. cbn [fst snd].
  set (n := length (List.filter _ _)) in *.
  destruct (String.eqb (ip r) client) eqn:Hip;
    [|rewrite andb_false_r in IH; cbn [andb] in *; lia].
  destruct (mounted "/api" (path r)) eqn:Hapi; cbn [andb] in *; [|lia].
  destruct (T - windowMs limiterOpts <? arrival r) eqn:Hlo; cbn [andb] in *; [|lia].
  destruct (arrival r <=? T) eqn:Hhi; cbn [andb]; [|lia].
  destruct (admits st r) eqn:Ha; [|rewrite isLimited_limited; cbn [negb]; lia].
  apply String.eqb_eq in Hip. subst client.
  unfold admits in Ha. rewrite Hapi in Ha. cbn [negb orb] in Ha.
  apply Nat.ltb_lt in Ha. apply Z.leb_le in Hhi.
  pose proof (recent_mono (arrival r) T (hitsOf st (ip r)) Hhi) as Hm.
  unfold hitsInWindow in *. cbn [max limiterOpts] in *.
  destruct (negb _); lia.
Qed.

(** The answers to one client do not depend on the other clients. *)
Lemma serve_client (C : config) (client : string) (rs : list request) :
  forall st st',
    hitsOf st client = hitsOf st' client ->
    logOfClient client (List.combine rs (snd (serve C st rs)))
    = List.combine (ofClient client rs) (snd (serve C st' (ofClient client rs))).
Proof.
  induction rs as [|r rs IH]; intros st st' Hh; [reflexivity|].
  rewrite serve_cons. unfold logOfClient, ofClient in *.
  cbn [snd List.combine List.filter fst].
  destruct (String.eqb (ip r) client) eqn:Hip.
  - rewrite serve_cons. cbn [snd List.combine].
    apply String.eqb_eq in Hip. subst client.
    rewrite (admits_hits st st' r Hh). f_equal.
    apply IH. rewrite !hitsOf_logged, Hh. reflexivity.
  - apply IH. rewrite hitsOf_logged, Hip, andb_false_r. exact Hh.
Qed.

(** The store after a sequence of requests remembers the client's hits,
    and nothing else. *)
Lemma serve_hits (C : config) (r : request) (pre : list request) :
  forall st,
    hitsInWindow (fst (serve C st pre)) (ip r) (arrival r)
    = (length (earlierHits (windowMs limiterOpts) pre r)
       + hitsInWindow st (ip r) (arrival r))%nat.
Proof.
  induction pre as [|r' pre IH]; intros st; [reflexivity|].
  rewrite serve_cons. cbn [fst].
  specialize (IH (logged st r')). rewrite hitsInWindow_logged in IH.
  unfold earlierHits in *. rewrite filter_cons_length.
  set (n := length (List.filter _ _)) in *.
  rewrite (andb_comm (mounted "/api" (path r'))) in IH.
  destruct (String.eqb (ip r') (ip r) && mounted "/api" (path r')
            && (arrival r - windowMs limiterOpts <? arrival r')); lia.
Qed.

(** No answer from below the limiter passes for the limiter's refusal. *)
Lemma below_limiter_not_limited (C : config) (r : request) :
  isLimited (below_limiter C r) = false.
Proof.
  unfold below_limiter.
  assert (Hf : forall e, isLimited (failed C e r) = false).
  { intros e. unfold failed, globalErrorHandler.
    destruct (development C); [|destruct (Err.isOperational e)]; reflexivity. }
  destruct (parseError C r); [apply Hf|].
  destruct (isStatic C r); [reflexivity|].
  destruct (firstRoute C r) as [[h handle]|]; [|apply Hf].
  destruct (handle (sanitised C r)); [apply Hf|].
  unfold isLimited. cbn [by_route resp]. destruct (body r0); reflexivity.
Qed.

Lemma serve_app (C : config) (pre : list request) (r : request) :
  forall st,
    snd (serve C st (pre ++ [r]))
    = (snd (serve C st pre) ++ [snd (app C (fst (serve C st pre)) r)])%list.
Proof.
  induction pre as [|r' pre IH]; intros st.
  - cbn [List.app serve fst snd]. destruct (app C st r). reflexivity.
  - cbn [List.app]. rewrite !serve_cons. cbn [fst snd]. rewrite IH. reflexivity.
Qed.

(** C7: for every client and every window of one hour (3600000 ms), at
    most 100 of the client's requests under /api that arrive inside the
    window are let through by the rate limiter; a request under /api that
    follows 100 or more requests of its client inside the hour before it
    is refused with 429 and
    'Too many requests from this IP, please try again in an hour!', while
    one that follows fewer than 100 is not refused; and what a client is
    answered is what it would be answered if no other client had sent
    anything. *)
Theorem rate_limit_cap (C : config) (rs : list request) (client : string) (T : Z) :
  (length (servedInWindow 3600000 client T (List.combine rs (responses C rs)))
   <= 100)%nat
  /\ (forall pre r,
        mounted "/api" (path r) = true ->
        (100 <= length (earlierHits 3600000 pre r))%nat ->
        last (responses C (pre ++ [r])) = Some limited
        /\ limited
           = {| resp := {| code := 429;
                           body :=
                             Text "Too many requests from this IP, please try again in an hour!" |};
                by_route := None |})
  /\ (forall pre r,
        mounted "/api" (path r) = true ->
        (length (earlierHits 3600000 pre r) < 100)%nat ->
        exists o, last (responses C (pre ++ [r])) = Some o /\ isLimited o = false)
  /\ logOfClient client (List.combine rs (responses C rs))
     = List.combine (ofClient client rs) (responses C (ofClient client rs)).
Proof.
  unfold responses. split; [|split; [|split]].
  - pose proof (serve_window C client T rs ∅) as H. cbn [max limiterOpts] in H.
    change (windowMs limiterOpts) with 3600000 in H. lia.
  - intros pre r Hapi Hn.
    change 3600000 with (windowMs limiterOpts) in Hn.
    assert (Hlim : snd (app C (fst (serve C ∅ pre)) r) = limited).
    { rewrite app_unfold. cbn [snd].
      pose proof (serve_hits C r pre ∅) as Hh. unfold hitsInWindow in Hh.
      unfold admits. rewrite Hapi. cbn [negb orb].
      destruct (_ <? _)%nat eqn:Hlt; [|reflexivity].
      apply Nat.ltb_lt in Hlt. cbn [max limiterOpts] in Hlt. lia. }
    rewrite serve_app, Hlim. split; [apply last_snoc | reflexivity].
  - intros pre r Hapi Hn.
    change 3600000 with (windowMs limiterOpts) in Hn.
    exists (below_limiter C r). split; [|apply below_limiter_not_limited].
    rewrite serve_app, app_unfold. cbn [snd].
    pose proof (serve_hits C r pre ∅) as Hh. unfold hitsInWindow in Hh.
    unfold admits. rewrite Hapi. cbn [negb orb].
    destruct (_ <? _)%nat eqn:Hlt; [apply last_snoc|].
    apply Nat.ltb_ge in Hlt. cbn [max limiterOpts] in Hlt.
    change (hitsOf ∅ (ip r)) with (@nil Z) in Hh. cbn [recent List.filter length] in Hh.
    lia.
  - apply serve_client. reflexivity.
Qed.

Example hundred_and_first_refused :
  List.map (fun o => code (resp o))
    (responses (noRoutes false) (List.repeat nonexistent 101))
  = (List.repeat 404 100 ++ [429])%list.
Proof. vm_compute. reflexivity. Qed.

Example other_client_not_counted :
  List.map (fun o => code (resp o))
    (responses (noRoutes false)
       (List.repeat nonexistent 100
        ++ [ {| method := "GET"; path := "/api/v1/nonexistent"; search := "";
                ip := "10.0.0.2"; arrival := 0; isJson := false; payload := "";
                params := ∅; query := ∅ |} ]))
  = List.repeat 404 101.
Proof. vm_compute. reflexivity. Qed.

Example outside_api_not_limited :
  List.map (fun o => code (resp o))
    (responses (noRoutes false) (List.repeat (Ref.get "/overview" []) 101))
  = List.repeat 404 101.
Proof. vm_compute. reflexivity. Qed.

End Application.

(** ** The order of doubles *)

Section Doubles.
Import Mongo.

Lemma SFcompare_refl (x : spec_float) :
  SFcompare x x = if snan x then None else Some Eq.
Proof.
  destruct x as [s|s| |s m e]; cbn; try reflexivity.
  - destruct s; reflexivity.
  - rewrite Z.compare_refl, Pos.compare_cont_refl. destruct s; reflexivity.
Qed.

Lemma is_nan_spec (a : float) : PrimFloat.is_nan a = snan (Prim2SF a).
Proof.
  unfold PrimFloat.is_nan. rewrite FloatAxioms.eqb_spec. unfold SFeqb.
  rewrite SFcompare_refl. destruct (snan _); reflexivity.
Qed.

Lemma dle_spec (a b : float) : dle a b = sle (Prim2SF a) (Prim2SF b).
Proof. unfold dle, sle. rewrite !is_nan_spec, FloatAxioms.leb_spec. reflexivity. Qed.

Ltac cmp :=
  repeat match goal with
  | |- context [Z.compare ?a ?b] => destruct (Z.compare_spec a b)
  | |- context [Pos.compare_cont Eq ?a ?b] =>
      change (Pos.compare_cont Eq a b) with (Pos.compare a b);
      destruct (Pos.compare_spec a b)
  | H : context [Z.compare ?a ?b] |- _ => destruct (Z.compare_spec a b)
  | H : context [Pos.compare_cont Eq ?a ?b] |- _ =>
      change (Pos.compare_cont Eq a b) with (Pos.compare a b) in H;
      destruct (Pos.compare_spec a b)
  end.

Lemma sle_total (x y : spec_float) : sle x y = false -> sle y x = true.
Proof.
  unfold sle, SFleb.
  destruct x as [[]|[]| |[] m1 e1], y as [[]|[]| |[] m2 e2]; cbn;
    try reflexivity; try discriminate; cmp; cbn; try reflexivity; try discriminate;
    intros; subst; lia.
Qed.

Lemma sle_trans (x y z : spec_float) :
  sle x y = true -> sle y z = true -> sle x z = true.
Proof.
  unfold sle, SFleb.
  destruct x as [[]|[]| |[] m1 e1], y as [[]|[]| |[] m2 e2], z as [[]|[]| |[] m3 e3];
    cbn; try reflexivity; try discriminate; intros H1 H2;
    cmp; cbn in *; try reflexivity; try discriminate; subst; try lia.
Qed.

(** The order of doubles is total and transitive. *)
Lemma dle_total (a b : float) : dle a b = false -> dle b a = true.
Proof. rewrite !dle_spec. apply sle_total. Qed.

Lemma dle_trans (a b c : float) :
  dle a b = true -> dle b c = true -> dle a c = true.
Proof. rewrite !dle_spec. apply sle_trans. Qed.

Lemma dle_refl (a : float) : dle a a = true.
Proof.
  destruct (dle a a) eqn:H; [reflexivity|].
  pose proof (dle_total a a H). congruence.
Qed.

(** The mean of 397, 497 and 997 as the database computes it. *)
Example davg_rounds : davg [397; 497; 997]%float = 630.33333333333337%float.
Proof. reflexivity. Qed.

(** A rounded mean can lie above everything it averages. *)
Example davg_above_all :
  davg [397.1; 397.1; 397.1]%float = 397.10000000000008%float
  /\ dle (davg [397.1; 397.1; 397.1]%float) 397.1%float = false.
Proof. split; reflexivity. Qed.

End Doubles.

(** ** The aggregation stages on tour documents *)

Section Stages.
Import Mongo Model Rollup.

Lemma mapM_map {A B D} (f : B -> option D) (g : A -> B) (h : A -> D) (l : list A) :
  (forall x, f (g x) = Some (h x)) ->
  mapM f (List.map g l) = Some (List.map h l).
Proof.
  intros H. induction l as [|a l IH]; [reflexivity|].
  cbn. rewrite H. cbn. rewrite IH. reflexivity.
Qed.

Lemma filter_map {A B} (p : B -> bool) (q : A -> bool) (g : A -> B) (l : list A) :
  (forall x, p (g x) = q x) ->
  List.filter p (List.map g l) = List.map g (List.filter q l).
Proof.
  intros H. induction l as [|a l IH]; [reflexivity|].
  cbn. rewrite H, IH. destruct (q a); reflexivity.
Qed.

Lemma nub_map {A} (eqb : A -> A -> bool) (g : A -> scalar) (l : list A) :
  (forall x y, scalar_eqb (g x) (g y) = eqb x y) ->
  nub (List.map g l) = List.map g (distinct eqb l).
Proof.
  intros H. induction l as [|a l IH]; [reflexivity|].
  cbn. rewrite IH. f_equal. apply filter_map. intros x. rewrite H. reflexivity.
Qed.

Lemma Qsum_ones {A} (l : list A) :
  Qsum (List.map (fun _ => 1%Q) l) = inject_Z (Z.of_nat (length l)).
Proof.
  induction l as [|a l IH]; [reflexivity|].
  cbn [List.map Qsum fold_right length]. fold (Qsum (List.map (fun _ : A => 1%Q) l)).
  rewrite IH. unfold Qplus, inject_Z. cbn [Qnum Qden]. f_equal. lia.
Qed.

Lemma mapM_map_in {A B D} (f : B -> option D) (g : A -> B) (h : A -> D) (l : list A) :
  (forall x, In x l -> f (g x) = Some (h x)) ->
  mapM f (List.map g l) = Some (List.map h l).
Proof.
  intros H. induction l as [|a l IH]; [reflexivity|].
  cbn. rewrite H by (left; reflexivity). cbn.
  rewrite IH by (intros x Hx; apply H; right; exact Hx). reflexivity.
Qed.

Section Accumulators.
Context {A : Type} (g : A -> doc).

Lemma accumulate_sum (e : expr) (h : A -> Q) (l : list A) :
  (forall x, evalNum e (g x) = Some (h x)) ->
  accumulate (Sum e) (List.map g l) = Some (VScalar (SNum (Qsum (List.map h l)))).
Proof. intros H. cbn. rewrite (mapM_map _ g h l H). reflexivity. Qed.

Lemma accumulate_avg (e : expr) (h : A -> float) (l : list A) :
  (forall x, evalDouble e (g x) = Some (h x)) ->
  l <> [] ->
  accumulate (Avg e) (List.map g l) = Some (VScalar (SDouble (davg (List.map h l)))).
Proof.
  intros H Hl. cbn. rewrite (mapM_map _ g h l H).
  destruct l; [contradiction|reflexivity].
Qed.

Lemma accumulate_min (e : expr) (h : A -> float) (l : list A) :
  (forall x, evalDouble e (g x) = Some (h x)) ->
  l <> [] ->
  accumulate (Min e) (List.map g l) = Some (VScalar (SDouble (least (List.map h l)))).
Proof.
  intros H Hl. cbn. rewrite (mapM_map _ g h l H).
  destruct l; [contradiction|reflexivity].
Qed.

Lemma accumulate_max (e : expr) (h : A -> float) (l : list A) :
  (forall x, evalDouble e (g x) = Some (h x)) ->
  l <> [] ->
  accumulate (Max e) (List.map g l) = Some (VScalar (SDouble (greatest (List.map h l)))).
Proof.
  intros H Hl. cbn. rewrite (mapM_map _ g h l H).
  destruct l; [contradiction|reflexivity].
Qed.

Lemma accumulate_push (e : expr) (h : A -> scalar) (l : list A) :
  (forall x, evalScalar e (g x) = Some (h x)) ->
  accumulate (Push e) (List.map g l) = Some (VArr (List.map h l)).
Proof. intros H. cbn. rewrite (mapM_map _ g h l H). reflexivity. Qed.

End Accumulators.

Lemma distinct_in {A} (eqb : A -> A -> bool) (l : list A) (x : A) :
  In x (distinct eqb l) -> In x l.
Proof.
  revert x. induction l as [|a l IH]; intros x; [tauto|].
  cbn. intros [->|H]; [left; reflexivity|].
  apply filter_In in H. right. apply IH. exact (proj1 H).
Qed.

Lemma filter_nonempty {A} (p : A -> bool) (l : list A) (x : A) :
  In x l -> p x = true -> List.filter p l <> [].
Proof.
  intros Hin Hp He.
  assert (H : In x (List.filter p l)) by (apply filter_In; split; assumption).
  rewrite He in H. exact H.
Qed.

(** One group of the stats rollup. *)
Lemma groupRow_stats (ms : list Tour) (k : string) :
  In k (List.map tierOf ms) ->
  groupRow (ToUpper (Field "difficulty"))
    [ ("numTours", Sum (Lit (SNum 1)));
      ("numRatings", Sum (Field "ratingsQuantity"));
      ("avgRating", Avg (Field "ratingsAverage"));
      ("avgPrice", Avg (Field "price"));
      ("minPrice", Min (Field "price"));
      ("maxPrice", Max (Field "price")) ]
    (List.map toDoc ms) (SStr k)
  = Some (statDoc (statOf k (List.filter (fun t => String.eqb (tierOf t) k) ms))).
Proof.
  intros Hk. apply in_map_iff in Hk. destruct Hk as [t0 [Ht0 Hin]].
  assert (Hne : List.filter (fun t => String.eqb (tierOf t) k) ms <> []).
  { apply (filter_nonempty _ ms t0 Hin). apply String.eqb_eq. exact Ht0. }
  unfold groupRow.
  rewrite (filter_map (keyIs (ToUpper (Field "difficulty")) (SStr k))
             (fun t => String.eqb (tierOf t) k) toDoc ms) by reflexivity.
  set (members := List.filter _ ms) in *.
  cbn [mapM fst snd].
  rewrite (accumulate_sum toDoc (Lit (SNum 1)) (fun _ => 1%Q)) by reflexivity.
  rewrite (accumulate_sum toDoc (Field "ratingsQuantity") ratingsQuantity)
    by reflexivity.
  rewrite (accumulate_avg toDoc (Field "ratingsAverage") ratingsAverage)
    by (reflexivity || exact Hne).
  rewrite (accumulate_avg toDoc (Field "price") price) by (reflexivity || exact Hne).
  rewrite (accumulate_min toDoc (Field "price") price) by (reflexivity || exact Hne).
  rewrite (accumulate_max toDoc (Field "price") price) by (reflexivity || exact Hne).
  rewrite Qsum_ones. reflexivity.
Qed.

#[global] Instance keyLe_total : Total keyLe.
Proof.
  intros a b. unfold keyLe.
  destruct (Qlt_le_dec (fst b) (fst a)) as [H|H]; [right; apply Qlt_le_weak|left]; exact H.
Qed.

#[global] Instance keyGe_total : Total keyGe.
Proof.
  intros a b. unfold keyGe.
  destruct (Qlt_le_dec (fst a) (fst b)) as [H|H]; [right; apply Qlt_le_weak|left]; exact H.
Qed.

#[global] Instance dkeyLe_total : Total dkeyLe.
Proof.
  intros a b. unfold dkeyLe.
  destruct (dle (fst a) (fst b)) eqn:H; [left; reflexivity|].
  right. apply dle_total. exact H.
Qed.

#[global] Instance dkeyGe_total : Total dkeyGe.
Proof.
  intros a b. unfold dkeyGe.
  destruct (dle (fst b) (fst a)) eqn:H; [left; reflexivity|].
  right. apply dle_total. exact H.
Qed.

Lemma Sorted_map_inv {A B} (R : relation B) (f : A -> B) (l : list A) :
  Sorted R (List.map f l) -> Sorted (fun a b => R (f a) (f b)) l.
Proof.
  induction l as [|a l IH]; [constructor|].
  cbn. intros H. inversion H as [|x l' Hs Hh]; subst.
  constructor; [apply IH; exact Hs|].
  destruct l as [|b l]; [constructor|].
  cbn in Hh. inversion Hh; subst. constructor. assumption.
Qed.

(** [$sort] on keyed rows: a sorted rearrangement of the rows. *)
Lemma sort_rows {A K} (R : relation (K * doc)) `{!RelDecision R, !Total R}
    (key : A -> K) (toD : A -> doc) (l : list A) :
  exists l',
    List.map snd (merge_sort R (List.map (fun a => (key a, toD a)) l))
    = List.map toD l'
    /\ Permutation l' l
    /\ Sorted (fun a b => R (key a, toD a) (key b, toD b)) l'.
Proof.
  pose proof (merge_sort_Permutation R (List.map (fun a => (key a, toD a)) l)) as HP.
  apply Permutation_map_inv in HP. destruct HP as [l' [Heq HP]].
  exists l'. split; [|split].
  - rewrite Heq, List.map_map. reflexivity.
  - symmetry. exact HP.
  - apply Sorted_map_inv. rewrite <- Heq. apply Sorted_merge_sort; assumption.
Qed.

Lemma sortDocs_rows {A} (field : string) (key : A -> Q) (toD : A -> doc)
    (l : list A) :
  (forall a, sortKey field (toD a) = Some (key a)) ->
  sortDocs field 1 (List.map toD l)
    = Some (List.map snd (merge_sort keyLe (List.map (fun a => (key a, toD a)) l)))
  /\ sortDocs field (-1) (List.map toD l)
    = Some (List.map snd (merge_sort keyGe (List.map (fun a => (key a, toD a)) l))).
Proof.
  intros H. unfold sortDocs.
  rewrite (mapM_map _ toD (fun a => (key a, toD a)))
    by (intros a; rewrite H; reflexivity).
  split; reflexivity.
Qed.

(** [$sort] on a field that holds a double in every row. *)
Lemma sortDocs_doubles {A} (field : string) (key : A -> float) (toD : A -> doc)
    (l : list A) :
  (forall a, sortKey field (toD a) = None) ->
  (forall a, sortKeyD field (toD a) = Some (key a)) ->
  sortDocs field 1 (List.map toD l)
    = Some (List.map snd (merge_sort dkeyLe (List.map (fun a => (key a, toD a)) l))).
Proof.
  intros HN H. unfold sortDocs.
  rewrite (mapM_map (fun d => f ← sortKeyD field d; Some (f, d)) toD
             (fun a => (key a, toD a)))
    by (intros x; rewrite H; reflexivity).
  destruct l as [|a l]; [reflexivity|].
  cbn [List.map mapM]. rewrite HN. reflexivity.
Qed.

(** The stats pipeline over a collection of tour documents. *)
Lemma stats_before_sort (drv : driver) (ts : list Tour) :
  aggregate drv
    [ S_match [("ratingsAverage", [Gte (SDouble 4.5)])];
      S_group (ToUpper (Field "difficulty"))
        [ ("numTours", Sum (Lit (SNum 1)));
          ("numRatings", Sum (Field "ratingsQuantity"));
          ("avgRating", Avg (Field "ratingsAverage"));
          ("avgPrice", Avg (Field "price"));
          ("minPrice", Min (Field "price"));
          ("maxPrice", Max (Field "price")) ] ]
    (List.map toDoc ts)
  = Some (List.map statDoc (tierStats ts)).
Proof.
  cbn [aggregate runStage].
  rewrite (filter_map _ rated toDoc ts)
    by (intros t; cbn; rewrite !andb_true_r; reflexivity).
  cbn [mbind option_bind]. unfold group.
  rewrite (mapM_map _ toDoc (fun t => SStr (tierOf t))) by reflexivity.
  cbn [mbind option_bind].
  rewrite <- (List.map_map tierOf SStr).
  rewrite (nub_map String.eqb SStr) by reflexivity.
  rewrite (mapM_map_in _ SStr
             (fun k => statDoc (statOf k (tierMembers k ts)))).
  - cbn. unfold tierStats, tiers. rewrite List.map_map. reflexivity.
  - intros k Hk. apply distinct_in in Hk. apply (groupRow_stats _ k Hk).
Qed.

End Stages.

(** ** getTourStats *)

Section Stats.
Import Mongo Model Rollup Http TourController.

Lemma aggregate_app (drv : driver) (p q : pipeline) (ds : list doc) :
  aggregate drv (p ++ q)%list ds = aggregate drv p ds ≫= aggregate drv q.
Proof.
  revert ds. induction p as [|s p IH]; intros ds; [reflexivity|].
  cbn. destruct (runStage drv s ds); [apply IH|reflexivity].
Qed.

Lemma getTourStats_run (E : env) (r : request) :
  run (getTourStats E) r
  = Aggregate statsPipeline
    :: match aggregate (drv E) statsPipeline (collection E) with
       | Some ds => [Send {| code := 200;
                             body := Json (success None (Wrapped "stats" ds)) |}]
       | None => [Next (Some driverError)]
       end.
Proof.
  unfold run, getTourStats, catchAsync, Tour_aggregate.
  unfold mbind, handler_bind, emit. cbn -[aggregate statsPipeline].
  destruct (aggregate _ _ _); reflexivity.
Qed.

Lemma distinct_complete {A} (eqb : A -> A -> bool) (l : list A) (x : A) :
  (forall a b, eqb a b = true <-> a = b) ->
  In x l -> In x (distinct eqb l).
Proof.
  intros Heq. induction l as [|a l IH]; [tauto|].
  cbn. intros [->|H]; [left; reflexivity|].
  destruct (eqb x a) eqn:He.
  - left. symmetry. apply Heq. exact He.
  - right. apply filter_In. split; [apply IH; exact H | rewrite He; reflexivity].
Qed.

Lemma distinct_NoDup {A} (eqb : A -> A -> bool) (l : list A) :
  (forall a b, eqb a b = true <-> a = b) ->
  List.NoDup (distinct eqb l).
Proof.
  intros Heq. induction l as [|a l IH]; [constructor|].
  cbn. constructor.
  - intros H. apply filter_In in H. destruct H as [_ H].
    assert (Haa : eqb a a = true) by (apply Heq; reflexivity).
    rewrite Haa in H. discriminate.
  - apply List.NoDup_filter. exact IH.
Qed.

Lemma least_spec (l : list float) :
  l <> [] -> In (least l) l /\ (forall q, In q l -> dle (least l) q = true).
Proof.
  destruct l as [|q0 l]; [contradiction|]. intros _. cbn [least].
  induction l as [|a l [IHin IHle]]; cbn [dminimum fold_right].
  - split; [left; reflexivity|]. intros q [<-|[]]. apply dle_refl.
  - fold (dminimum q0 l) in *. unfold dmin.
    destruct (dle a (dminimum q0 l)) eqn:Hd.
    + split; [right; left; reflexivity|].
      intros q [<-|[<-|Hq]].
      * eapply dle_trans; [exact Hd|]. apply IHle. left. reflexivity.
      * apply dle_refl.
      * eapply dle_trans; [exact Hd|]. apply IHle. right. exact Hq.
    + split; [destruct IHin as [H0|H0]; [left; exact H0 | right; right; exact H0]|].
      intros q [<-|[<-|Hq]].
      * apply IHle. left. reflexivity.
      * apply dle_total. exact Hd.
      * apply IHle. right. exact Hq.
Qed.

Lemma greatest_spec (l : list float) :
  l <> [] -> In (greatest l) l /\ (forall q, In q l -> dle q (greatest l) = true).
Proof.
  destruct l as [|q0 l]; [contradiction|]. intros _. cbn [greatest].
  induction l as [|a l [IHin IHle]]; cbn [dmaximum fold_right].
  - split; [left; reflexivity|]. intros q [<-|[]]. apply dle_refl.
  - fold (dmaximum q0 l) in *. unfold dmax.
    destruct (dle a (dmaximum q0 l)) eqn:Hd.
    + split; [destruct IHin as [H0|H0]; [left; exact H0 | right; right; exact H0]|].
      intros q [<-|[<-|Hq]].
      * apply IHle. left. reflexivity.
      * exact Hd.
      * apply IHle. right. exact Hq.
    + split; [right; left; reflexivity|].
      assert (Hge : dle (dmaximum q0 l) a = true) by (apply dle_total; exact Hd).
      intros q [<-|[<-|Hq]].
      * eapply dle_trans; [|exact Hge]. apply IHle. left. reflexivity.
      * apply dle_refl.
      * eapply dle_trans; [|exact Hge]. apply IHle. right. exact Hq.
Qed.

Lemma tierMembers_spec (k : string) (ts : list Tour) (t : Tour) :
  In t (tierMembers k ts)
  <-> In t ts /\ (4.5 <=? ratingsAverage t)%float = true
      /\ Str.toUpper (difficulty t) = k.
Proof.
  unfold tierMembers, rated, tierOf. rewrite !filter_In, String.eqb_eq.
  tauto.
Qed.

Lemma tiers_spec (k : string) (ts : list Tour) :
  In k (tiers ts)
  <-> exists t, In t ts /\ (4.5 <=? ratingsAverage t)%float = true
                /\ Str.toUpper (difficulty t) = k.
Proof.
  unfold tiers. split.
  - intros H. apply distinct_in in H. apply in_map_iff in H.
    destruct H as [t [Hk Ht]]. exists t. apply filter_In in Ht.
    unfold rated in Ht. destruct Ht as [Hin Hr]. auto.
  - intros [t [Hin [Hr Hk]]]. apply (distinct_complete _ _ _ String.eqb_eq).
    apply in_map_iff. exists t. split; [exact Hk|].
    apply filter_In. split; [exact Hin|]. exact Hr.
Qed.

Lemma price_range (ms : list Tour) :
  ms <> [] ->
  (forall t, In t ms ->
     dle (least (List.map price ms)) (price t) = true
     /\ dle (price t) (greatest (List.map price ms)) = true)
  /\ (exists t, In t ms /\ price t = least (List.map price ms))
  /\ (exists t, In t ms /\ price t = greatest (List.map price ms)).
Proof.
  intros Hne.
  assert (Hm : List.map price ms <> []) by (destruct ms; [contradiction|discriminate]).
  destruct (least_spec _ Hm) as [Hlin Hlle].
  destruct (greatest_spec _ Hm) as [Hgin Hgle].
  split; [|split].
  - intros t Ht. split; [apply Hlle | apply Hgle]; apply in_map; exact Ht.
  - apply in_map_iff in Hlin. destruct Hlin as [t [Hp Ht]]. eauto.
  - apply in_map_iff in Hgin. destruct Hgin as [t [Hp Ht]]. eauto.
Qed.

(** What getTourStats sends: the tier statistics in ascending order of
    average price. *)
Lemma stats_rows (R : JS.runtime) (D : driver) (ts : list Tour) (r : request) :
  exists stats : list TourStat,
    run (getTourStats {| rt := R; drv := D; collection := List.map toDoc ts |}) r
    = [ Aggregate statsPipeline;
        Send {| code := 200;
                body := Json (success None (Wrapped "stats" (List.map statDoc stats))) |} ]
    /\ Permutation stats (tierStats ts)
    /\ Sorted (fun a b => dle (avgPrice a) (avgPrice b) = true) stats.
Proof.
  destruct (sort_rows dkeyLe avgPrice statDoc (tierStats ts)) as [stats [Hs [HP HS]]].
  exists stats. split; [|split; [exact HP | exact HS]].
  rewrite getTourStats_run. cbn [drv collection].
  change statsPipeline with
    ([ S_match [("ratingsAverage", [Gte (SDouble 4.5)])];
       S_group (ToUpper (Field "difficulty"))
         [ ("numTours", Sum (Lit (SNum 1)));
           ("numRatings", Sum (Field "ratingsQuantity"));
           ("avgRating", Avg (Field "ratingsAverage"));
           ("avgPrice", Avg (Field "price"));
           ("minPrice", Min (Field "price"));
           ("maxPrice", Max (Field "price")) ] ] ++ [S_sort "avgPrice" 1])%list at 2.
  rewrite aggregate_app, stats_before_sort. cbn [mbind option_bind aggregate runStage].
  rewrite (sortDocs_doubles "avgPrice" avgPrice statDoc (tierStats ts)
             (fun a => eq_refl) (fun a => eq_refl)).
  cbn [mbind option_bind]. rewrite Hs. reflexivity.
Qed.

(** C3: over any collection of tour documents, getTourStats sends 200 with
    one row per upper-cased difficulty of the tours whose average rating is
    at least 4.5; the row of a difficulty is computed from exactly the
    tours of that difficulty with rating at least 4.5: their number, the
    sum of their rating counts, the mean of their ratings and the mean of
    their prices (each the double sum, in document order, divided by their
    number), and the least and the greatest of their prices; and the rows
    are in ascending order of average price. *)
Theorem getTourStats_rollup (R : JS.runtime) (D : driver) (ts : list Tour)
    (r : request) :
  let E := {| rt := R; drv := D; collection := List.map toDoc ts |} in
  exists stats : list TourStat,
    run (getTourStats E) r
    = [ Aggregate statsPipeline;
        Send {| code := 200;
                body := Json (success None (Wrapped "stats" (List.map statDoc stats))) |} ]
    /\ Permutation stats (tierStats ts)
    /\ Sorted (fun a b => dle (avgPrice a) (avgPrice b) = true) stats
    /\ List.NoDup (tiers ts)
    /\ (forall k, In k (tiers ts)
          <-> exists t, In t ts /\ (4.5 <=? ratingsAverage t)%float = true
                        /\ Str.toUpper (difficulty t) = k)
    /\ (forall k t, In t (tierMembers k ts)
          <-> In t ts /\ (4.5 <=? ratingsAverage t)%float = true
              /\ Str.toUpper (difficulty t) = k)
    /\ (forall s, In s stats ->
          let ms := tierMembers (tier s) ts in
          In (tier s) (tiers ts)
          /\ numTours s = inject_Z (Z.of_nat (length ms))
          /\ numRatings s = Qsum (List.map ratingsQuantity ms)
          /\ avgRating s
             = (fold_left PrimFloat.add (List.map ratingsAverage ms) 0
                / ofNat (length ms))%float
          /\ avgPrice s
             = (fold_left PrimFloat.add (List.map price ms) 0
                / ofNat (length ms))%float
          /\ (forall t, In t ms ->
                dle (minPrice s) (price t) = true
                /\ dle (price t) (maxPrice s) = true)
          /\ (exists t, In t ms /\ price t = minPrice s)
          /\ (exists t, In t ms /\ price t = maxPrice s)).
Proof.
  cbv zeta.
  destruct (stats_rows R D ts r) as [stats [Hrun [HP HS]]].
  exists stats. split; [|split; [|split; [|split; [|split; [|split]]]]].
  - exact Hrun.
  - exact HP.
  - exact HS.
  - apply distinct_NoDup. exact String.eqb_eq.
  - intros k. apply tiers_spec.
  - intros k t. apply tierMembers_spec.
  - intros s Hin. cbv zeta.
    apply (Permutation_in _ HP) in Hin. unfold tierStats in Hin.
    apply in_map_iff in Hin. destruct Hin as [k [<- Hk]]. cbn [tier statOf].
    assert (Hne : tierMembers k ts <> []).
    { apply tiers_spec in Hk. destruct Hk as [t Ht].
      apply (tierMembers_spec k ts t) in Ht. intros He. rewrite He in Ht. exact Ht. }
    destruct (price_range _ Hne) as [Hr [Hmin Hmax]].
    unfold statOf. cbn [numTours numRatings avgRating avgPrice minPrice maxPrice].
    unfold davg, dsum. rewrite !List.length_map.
    repeat split; try assumption; apply Hr; assumption.
Qed.

(** One tour rated 5 and priced 397 is its tier's only member: the means
    are its rating and its price. *)
Example stats_of_one :
  tierStats [ {| id := "1"; name := "The Forest Hiker"; difficulty := "easy";
                 ratingsAverage := 5; ratingsQuantity := 37%Q; price := 397;
                 startDates := []; startLocation := (0%Q, 0%Q) |} ]
  = [ {| tier := "EASY"; numTours := 1%Q; numRatings := 37%Q;
         avgRating := 5; avgPrice := 397; minPrice := 397; maxPrice := 397 |} ].
Proof. reflexivity. Qed.

End Stats.

(** ** The calendar *)

Section Calendar.
Import Cal.

(** Every day of the 400-year era falls in one of the twelve months. *)
Lemma doy_of_range (doe : Z) : 0 <= doe < 146097 -> 0 <= doy_of doe <= 365.
Proof. intros H. unfold doy_of, yoe_of. Z.div_mod_to_equations. lia. Qed.

Lemma mp_of_range (doe : Z) : 0 <= doe < 146097 -> 0 <= mp_of doe <= 11.
Proof.
  intros H. apply doy_of_range in H. unfold mp_of.
  Z.div_mod_to_equations. lia.
Qed.

Lemma month_range (ms : Z) : 1 <= month ms <= 12.
Proof.
  unfold month, month_of_days.
  assert (H : 0 <= doe_of (days_of_ms ms) < 146097)
    by (unfold doe_of; apply Z.mod_pos_bound; lia).
  apply mp_of_range in H.
  destruct (mp_of (doe_of (days_of_ms ms)) <? 10) eqn:Hlt; [apply Z.ltb_lt in Hlt|apply Z.ltb_ge in Hlt]; lia.
Qed.

End Calendar.

(** ** getMonthlyPlan *)

Section Plan.
Import Mongo Model Rollup Http TourController Obs.

Lemma unwind_tours (ts : list Tour) :
  List.concat (List.map (unwind "startDates") (List.map toDoc ts))
  = List.map startDoc (starts ts).
Proof.
  unfold starts. induction ts as [|t ts IH]; [reflexivity|].
  cbn [List.map List.concat List.flat_map]. rewrite IH, List.map_app. f_equal.
  change (unwind "startDates" (toDoc t))
    with (List.map (fun s => setField "startDates" (VScalar s) (toDoc t))
            (List.map SDate (startDates t))).
  rewrite !List.map_map. reflexivity.
Qed.

Lemma month_key (a b : Z) :
  scalar_eqb (SNum (inject_Z a)) (SNum (inject_Z b)) = (a =? b).
Proof.
  cbn [scalar_eqb]. unfold Qeq_bool, inject_Z. cbn [Qnum Qden].
  rewrite !Z.mul_1_r. reflexivity.
Qed.

(** One group of the monthly plan, after [$addFields] and [$project]. *)
Lemma groupRow_plan (ss : list (Tour * Z)) (m : Z) :
  (groupRow (Month (Field "startDates"))
     [ ("numTourStarts", Sum (Lit (SNum 1)));
       ("tours", Push (Field "name")) ]
     (List.map startDoc ss) (SNum (inject_Z m))
   ≫= fun d => addFields [("month", Field "_id")] d ≫= project [("_id", false)])
  = Some (rowDoc (rowOf m (List.filter (fun s => monthOf s =? m) ss))).
Proof.
  unfold groupRow.
  rewrite (filter_map (keyIs (Month (Field "startDates")) (SNum (inject_Z m)))
             (fun s => monthOf s =? m) startDoc ss)
    by (intros s; apply (month_key (monthOf s) m)).
  set (members := List.filter _ ss).
  cbn [mapM fst snd].
  rewrite (accumulate_sum startDoc (Lit (SNum 1)) (fun _ => 1%Q)) by reflexivity.
  rewrite (accumulate_push startDoc (Field "name") (fun s => SStr (name (fst s))))
    by reflexivity.
  rewrite Qsum_ones. unfold rowDoc, rowOf. cbn. rewrite List.map_map. reflexivity.
Qed.

Lemma mapM_bind {A B D} (f : A -> option B) (g : B -> option D) (l : list A) :
  mapM f l ≫= mapM g = mapM (fun a => f a ≫= g) l.
Proof.
  induction l as [|a l IH]; [reflexivity|].
  cbn. destruct (f a) as [b|]; cbn; [|reflexivity].
  rewrite <- IH. destruct (mapM f l) as [bs|]; cbn.
  - destruct (g b); reflexivity.
  - destruct (g b); reflexivity.
Qed.

Lemma mapM_three {A B D F} (f : A -> option B) (g : B -> option D)
    (h : D -> option F) (l : list A) :
  (mapM f l ≫= fun a => mapM g a ≫= fun b => mapM h b ≫= fun c => Some c)
  = mapM (fun x => f x ≫= fun y => g y ≫= h) l.
Proof.
  transitivity (mapM f l ≫= mapM (fun y => g y ≫= h)).
  - destruct (mapM f l) as [a|]; cbn; [|reflexivity].
    rewrite <- (mapM_bind g h a). destruct (mapM g a) as [b|]; cbn; [|reflexivity].
    destruct (mapM h b); reflexivity.
  - apply mapM_bind.
Qed.

(** The plan pipeline, up to its sort, over a collection of tour documents. *)
Lemma plan_before_sort (drv : driver) (lo hi : Z) (ts : list Tour) :
  aggregate drv
    [ S_unwind "startDates";
      S_match [("startDates", [Gte (jsDate (Some lo)); Lte (jsDate (Some hi))])];
      S_group (Month (Field "startDates"))
        [ ("numTourStarts", Sum (Lit (SNum 1)));
          ("tours", Push (Field "name")) ];
      S_addFields [("month", Field "_id")];
      S_project [("_id", false)] ]
    (List.map toDoc ts)
  = Some (List.map rowDoc (monthRows lo hi ts)).
Proof.
  cbn [aggregate runStage mbind option_bind].
  rewrite unwind_tours.
  rewrite (filter_map _ (between lo hi) startDoc (starts ts))
    by (intros s; cbn; rewrite !andb_true_r; reflexivity).
  unfold group.
  rewrite (mapM_map _ startDoc (fun s => SNum (inject_Z (monthOf s)))) by reflexivity.
  cbn [mbind option_bind].
  rewrite <- (List.map_map monthOf (fun m => SNum (inject_Z m))).
  rewrite (nub_map Z.eqb (fun m => SNum (inject_Z m))) by exact month_key.
  fold (months lo hi ts).
  set (ss := List.filter (between lo hi) (starts ts)).
  change (match mapM ?f ?l with Some x => ?k x | None => None end)
    with (mapM f l ≫= k).
  rewrite mapM_three.
  rewrite (mapM_map _ (fun m => SNum (inject_Z m))
             (fun m => rowDoc (rowOf m (monthMembers lo hi m ts)))).
  - unfold monthRows. rewrite List.map_map. reflexivity.
  - intros m. apply groupRow_plan.
Qed.

Lemma getMonthlyPlan_run (E : env) (r : request) :
  let year := (JS.toNumber (rt E) (params r !! "year") * 1)%float in
  let p := planPipeline (yearStart (rt E) year) (yearEnd (rt E) year) in
  run (getMonthlyPlan E) r
  = Aggregate p
    :: match aggregate (drv E) p (collection E) with
       | Some ds => [Send {| code := 200;
                             body := Json (success None (Wrapped "plan" ds)) |}]
       | None => [Next (Some driverError)]
       end.
Proof.
  cbv zeta. unfold run, getMonthlyPlan, catchAsync, Tour_aggregate.
  unfold mbind, handler_bind, emit, getReq. cbn -[aggregate planPipeline].
  destruct (aggregate _ _ _); reflexivity.
Qed.

Lemma months_range (lo hi : Z) (ts : list Tour) (m : Z) :
  In m (months lo hi ts) -> 1 <= m <= 12.
Proof.
  intros H. apply distinct_in in H. apply in_map_iff in H.
  destruct H as [s [<- _]]. apply month_range.
Qed.

Lemma months_NoDup (lo hi : Z) (ts : list Tour) : List.NoDup (months lo hi ts).
Proof. apply distinct_NoDup. exact Z.eqb_eq. Qed.

Lemma months_length (lo hi : Z) (ts : list Tour) :
  (length (months lo hi ts) <= 12)%nat.
Proof.
  change 12%nat with (length [1; 2; 3; 4; 5; 6; 7; 8; 9; 10; 11; 12]).
  apply List.NoDup_incl_length; [apply months_NoDup|].
  intros m Hm. apply months_range in Hm. cbn.
  assert (H : m = 1 \/ m = 2 \/ m = 3 \/ m = 4 \/ m = 5 \/ m = 6 \/ m = 7
              \/ m = 8 \/ m = 9 \/ m = 10 \/ m = 11 \/ m = 12) by lia.
  intuition auto.
Qed.

Lemma monthMembers_spec (lo hi m : Z) (ts : list Tour) (t : Tour) (d : Z) :
  In (t, d) (monthMembers lo hi m ts)
  <-> In t ts /\ In d (startDates t) /\ lo <= d <= hi /\ Cal.month d = m.
Proof.
  unfold monthMembers, between, monthOf, starts.
  rewrite !filter_In, in_flat_map. cbn [snd].
  rewrite Z.eqb_eq, andb_true_iff, !Z.leb_le. split.
  - intros [[[t' [Ht' Hin]] Hb] Hm]. apply in_map_iff in Hin.
    destruct Hin as [d' [[= <- <-] Hd]]. tauto.
  - intros [Ht [Hd [Hb Hm]]]. repeat split; try tauto.
    exists t. split; [exact Ht|]. apply in_map_iff. exists d. auto.
Qed.

(** X1: when the two Date bounds built from the year are valid dates lo and
    hi, getMonthlyPlan sends 200 with one row per month that has a start
    date between lo and hi: the row's count is the number of those start
    dates (one per date, so a tour counts once for each of its dates in the
    month) and its list holds their tours' names; there are at most 12
    rows, every month is within 1..12, and the rows are in descending order
    of count. *)
Theorem getMonthlyPlan_plan (R : JS.runtime) (D : driver) (ts : list Tour)
    (r : request) (y : string) (lo hi : Z) :
  params r !! "year" = Some y ->
  yearStart R (JS.ToNumber R y * 1)%float = Some lo ->
  yearEnd R (JS.ToNumber R y * 1)%float = Some hi ->
  let E := {| rt := R; drv := D; collection := List.map toDoc ts |} in
  exists rows : list MonthRow,
    run (getMonthlyPlan E) r
    = [ Aggregate (planPipeline (Some lo) (Some hi));
        Send {| code := 200;
                body := Json (success None (Wrapped "plan" (List.map rowDoc rows))) |} ]
    /\ Permutation rows (monthRows lo hi ts)
    /\ Sorted (fun a b => (numTourStarts b <= numTourStarts a)%Q) rows
    /\ (length rows <= 12)%nat
    /\ (forall row, In row rows ->
          1 <= month row <= 12
          /\ numTourStarts row
             = inject_Z (Z.of_nat (length (monthMembers lo hi (month row) ts)))
          /\ tours row
             = List.map (fun s => name (fst s)) (monthMembers lo hi (month row) ts))
    /\ (forall m t d, In (t, d) (monthMembers lo hi m ts)
          <-> In t ts /\ In d (startDates t) /\ lo <= d <= hi /\ Cal.month d = m).
Proof.
  intros Hy Hlo Hhi E.
  destruct (sort_rows keyGe numTourStarts rowDoc (monthRows lo hi ts))
    as [rows [Hs [HP HS]]].
  assert (Hlen : (length rows <= 12)%nat).
  { rewrite (Permutation_length HP). unfold monthRows. rewrite List.length_map.
    apply months_length. }
  exists rows. split; [|split; [|split; [|split; [|split]]]].
  - rewrite getMonthlyPlan_run. cbv zeta. unfold E. cbn [rt drv collection].
    rewrite Hy. cbn [JS.toNumber]. rewrite Hlo, Hhi.
    change (planPipeline (Some lo) (Some hi)) with
      ([ S_unwind "startDates";
         S_match [("startDates", [Gte (jsDate (Some lo)); Lte (jsDate (Some hi))])];
         S_group (Month (Field "startDates"))
           [ ("numTourStarts", Sum (Lit (SNum 1)));
             ("tours", Push (Field "name")) ];
         S_addFields [("month", Field "_id")];
         S_project [("_id", false)] ]
       ++ [S_sort "numTourStarts" (-1); S_limit 12])%list at 2.
    rewrite aggregate_app, plan_before_sort.
    cbn [mbind option_bind aggregate runStage].
    rewrite (proj2 (sortDocs_rows "numTourStarts" numTourStarts rowDoc
                      (monthRows lo hi ts) (fun a => eq_refl))).
    cbn [mbind option_bind]. rewrite Hs.
    rewrite firstn_all2 by (rewrite List.length_map; exact Hlen).
    reflexivity.
  - exact HP.
  - exact HS.
  - exact Hlen.
  - intros row Hin. apply (Permutation_in _ HP) in Hin. unfold monthRows in Hin.
    apply in_map_iff in Hin. destruct Hin as [m [<- Hm]]. cbn [month rowOf].
    split; [exact (months_range _ _ _ _ Hm)|]. split; reflexivity.
  - intros m t d. apply monthMembers_spec.
Qed.

Lemma getMonthlyPlan_plan_witness :
  exists rows : list MonthRow,
    run (getMonthlyPlan (Ref.env [forestHiker; seaExplorer])) plan2021
    = [ Aggregate (planPipeline (Some (Cal.utc 2021 1 1)) (Some (Cal.utc 2021 12 31)));
        Send {| code := 200;
                body := Json (success None (Wrapped "plan" (List.map rowDoc rows))) |} ]
    /\ (length rows <= 12)%nat.
Proof.
  destruct (getMonthlyPlan_plan Ref.runtime Ref.driver [forestHiker; seaExplorer]
              plan2021 "2021" (Cal.utc 2021 1 1) (Cal.utc 2021 12 31)
              eq_refl eq_refl eq_refl) as [rows H].
  exists rows.
  exact (conj (proj1 H) (proj1 (proj2 (proj2 (proj2 H))))).
Defined.

(** C4 (the code departs from the claim): a start date at 09:00 UTC on 31
    December 2021 falls in calendar year 2021, yet the plan for 2021 of a
    collection whose only start date it is comes back empty: the upper bound
    of the filter is midnight at the start of 31 December. *)
Theorem getMonthlyPlan_drops_late_december :
  Cal.year (Cal.utc 2021 12 31 + 9 * 3600000) = 2021
  /\ Cal.month (Cal.utc 2021 12 31 + 9 * 3600000) = 12
  /\ run (getMonthlyPlan (Ref.env [snowAdventurer])) plan2021
     = [ Aggregate (planPipeline (Some (Cal.utc 2021 1 1)) (Some (Cal.utc 2021 12 31)));
         Send {| code := 200; body := Json (success None (Wrapped "plan" [])) |} ].
Proof.
  split; [reflexivity|]. split; [reflexivity|].
  rewrite getMonthlyPlan_run. vm_compute. reflexivity.
Qed.

(** Two start dates of one tour in July 2021 count twice for July. *)
Example plan_two_starts_in_july :
  sent (run (getMonthlyPlan (Ref.env [forestHiker; seaExplorer])) plan2021)
  = [ {| code := 200;
         body := Json (success None (Wrapped "plan"
                   [ [ ("numTourStarts", VScalar (SNum 3));
                       ("tours", VArr [SStr "The Forest Hiker"; SStr "The Sea Explorer";
                                       SStr "The Sea Explorer"]);
                       ("month", VScalar (SNum 7)) ];
                     [ ("numTourStarts", VScalar (SNum 1));
                       ("tours", VArr [SStr "The Forest Hiker"]);
                       ("month", VScalar (SNum 10)) ];
                     [ ("numTourStarts", VScalar (SNum 1));
                       ("tours", VArr [SStr "The Forest Hiker"]);
                       ("month", VScalar (SNum 4)) ] ])) |} ].
Proof. vm_compute. reflexivity. Qed.

Example stats_three_tiers :
  sent (run (getTourStats
               (Ref.env [forestHiker; seaExplorer; snowAdventurer; cityWanderer]))
          (Ref.get "/api/v1/tours/tour-stats" []))
  = [ {| code := 200;
         body := Json (success None (Wrapped "stats"
                   [ [ ("_id", VScalar (SStr "EASY"));
                       ("numTours", VScalar (SNum 2));
                       ("numRatings", VScalar (SNum 43));
                       ("avgRating", VScalar (SDouble 4.75));
                       ("avgPrice", VScalar (SDouble 447));
                       ("minPrice", VScalar (SDouble 397));
                       ("maxPrice", VScalar (SDouble 497)) ];
                     [ ("_id", VScalar (SStr "DIFFICULT"));
                       ("numTours", VScalar (SNum 1));
                       ("numRatings", VScalar (SNum 13));
                       ("avgRating", VScalar (SDouble 4.5));
                       ("avgPrice", VScalar (SDouble 997));
                       ("minPrice", VScalar (SDouble 997));
                       ("maxPrice", VScalar (SDouble 997)) ] ])) |} ].
Proof. vm_compute. reflexivity. Qed.

End Plan.

(** ** Reading [latlng] *)

Section LatLng.
Import Mongo Http TourController Obs Further.

Lemma split_no_comma (s : string) :
  hasComma s = false -> Str.split "," s = [s].
Proof.
  induction s as [|c s IH]; [reflexivity|].
  cbn [hasComma Str.split]. intros H. apply orb_false_iff in H.
  destruct H as [Hc Hs]. rewrite Hc, (IH Hs). reflexivity.
Qed.

Lemma split_at_comma (a b : string) :
  hasComma a = false ->
  Str.split "," (a ++ String "," b) = a :: Str.split "," b.
Proof.
  induction a as [|c a IH]; intros H.
  - reflexivity.
  - cbn [hasComma] in H. apply orb_false_iff in H. destruct H as [Hc Ha].
    change (Str.split "," (String c a ++ String "," b))
      with (if Ascii.eqb c "," then EmptyString :: Str.split "," (a ++ String "," b)
            else match Str.split "," (a ++ String "," b) with
                 | [] => [String c EmptyString]
                 | h :: t => String c h :: t
                 end).
    rewrite Hc, (IH Ha). reflexivity.
Qed.

Lemma falsy_some (s : string) : JS.falsy (Some s) = false <-> s <> "".
Proof.
  cbn. split.
  - intros H ->. discriminate.
  - intros H. apply String.eqb_neq. exact H.
Qed.

Lemma destructure_pair (lat lng : string) :
  hasComma lat = false -> hasComma lng = false ->
  JS.destructure2 (Str.split "," (lat ++ String "," lng)) = (Some lat, Some lng).
Proof.
  intros Ha Hb. rewrite (split_at_comma lat lng Ha), (split_no_comma lng Hb).
  reflexivity.
Qed.

Lemma centerGiven_no_comma (s : string) : hasComma s = false -> centerGiven s = false.
Proof.
  intros H. unfold centerGiven. rewrite (split_no_comma s H). cbn.
  rewrite orb_true_r. reflexivity.
Qed.

Lemma geo_run_undefined (E : env) (r : request) :
  params r !! "latlng" = None ->
  run (getToursWithin E) r = [Next (Some typeError)]
  /\ run (getDistances E) r = [Next (Some typeError)].
Proof.
  intros H. unfold run, getToursWithin, getDistances, catchAsync.
  unfold mbind, handler_bind, getReq. cbn [req trace fst snd].
  rewrite H. split; reflexivity.
Qed.

(** X2: for a latitude and a longitude that are non-empty and free of
    commas, a request with latlng = lat,lng makes getToursWithin query a
    sphere centred at [lng, lat] and getDistances aggregate nearest the
    point [lng * 1, lat * 1]: latitude is read first and handed over second;
    no error precedes the database call. *)
Theorem latlng_longitude_first (E : env) (r : request) (lat lng : string) :
  hasComma lat = false ->
  hasComma lng = false ->
  lat <> "" ->
  lng <> "" ->
  params r !! "latlng" = Some (lat ++ "," ++ lng) ->
  (exists rest,
     run (getToursWithin E) r
     = Find {| gw_field := "startLocation";
               gw_center := (Some lng, Some lat);
               gw_radius := radiusOf (rt E) (params r !! "unit")
                              (params r !! "distance") |} :: rest)
  /\ (exists rest,
        run (getDistances E) r
        = Aggregate [ S_geoNear ((JS.ToNumber (rt E) lng * 1)%float,
                                 (JS.ToNumber (rt E) lat * 1)%float)
                        "distance" (multiplierOf (params r !! "unit"));
                      S_project [("distance", true); ("name", true)] ] :: rest).
Proof.
  intros Ha Hb Hlat Hlng Hl.
  change (lat ++ "," ++ lng) with (lat ++ String "," lng) in Hl.
  assert (Hd := destructure_pair lat lng Ha Hb).
  assert (Hc : centerGiven (lat ++ String "," lng) = true).
  { unfold centerGiven. rewrite Hd. cbn [fst snd].
    rewrite (proj2 (falsy_some lat) Hlat), (proj2 (falsy_some lng) Hlng). reflexivity. }
  split.
  - rewrite (getToursWithin_run E r _ Hl), Hc. unfold withinQuery. rewrite Hd.
    cbn [fst snd List.app]. eauto.
  - rewrite (getDistances_run E r _ Hl), Hc. unfold distancesQuery, distancesPipeline.
    rewrite Hd. cbn [fst snd List.app JS.toNumber]. eauto.
Qed.

Lemma latlng_longitude_first_witness :
  (exists rest,
     run (getToursWithin (Ref.env [forestHiker])) withinMiles
     = Find {| gw_field := "startLocation";
               gw_center := (Some "118", Some "34");
               gw_radius := radiusOf Ref.runtime (Some "miles") (Some "200") |} :: rest).
Proof.
  exact (proj1 (latlng_longitude_first (Ref.env [forestHiker]) withinMiles "34" "118"
                  eq_refl eq_refl ltac:(discriminate) ltac:(discriminate) eq_refl)).
Defined.

(** X3: whenever latlng does not yield both a latitude and a longitude,
    getToursWithin and getDistances pass the 400 error to next and then
    still make their database call, so the request is ended twice: by the
    error and then by a 200 response or by a second error. *)
Theorem geo_guard_falls_through (E : env) (r : request) (l : string) :
  params r !! "latlng" = Some l ->
  centerGiven l = false ->
  run (getToursWithin E) r
  = Next (Some latlngError)
    :: Find (withinQuery E r l)
    :: match within (drv E) (withinQuery E r l) (collection E) with
       | inr ds => [Send {| code := 200;
                            body := Json (success (Some (length ds)) (Bare ds)) |}]
       | inl e => [Next (Some e)]
       end
  /\ run (getDistances E) r
     = Next (Some latlngError)
       :: Aggregate (distancesQuery E r l)
       :: match aggregate (drv E) (distancesQuery E r l) (collection E) with
          | Some ds => [Send {| code := 200;
                                body := Json (success None (Wrapped "data" ds)) |}]
          | None => [Next (Some driverError)]
          end
  /\ endings (run (getToursWithin E) r) = 2%nat
  /\ endings (run (getDistances E) r) = 2%nat.
Proof.
  intros Hl Hc.
  rewrite (getToursWithin_run E r l Hl), (getDistances_run E r l Hl), Hc.
  cbn [List.app]. split; [reflexivity|]. split; [reflexivity|]. split.
  - destruct (within _ _ _); reflexivity.
  - destruct (aggregate _ _ _); reflexivity.
Qed.

Lemma geo_guard_falls_through_witness :
  endings (run (getToursWithin (Ref.env [forestHiker])) noLongitude) = 2%nat
  /\ endings (run (getDistances (Ref.env [forestHiker])) noLongitude) = 2%nat.
Proof.
  exact (proj2 (proj2 (geo_guard_falls_through (Ref.env [forestHiker]) noLongitude "45"
                         eq_refl eq_refl))).
Defined.

(** X4: getTourStats and getMonthlyPlan call the database once and end
    every request exactly once, with the 200 response or with the error of
    a failed aggregation, never both; getToursWithin and getDistances do
    the same when latlng yields both coordinates, and when the latlng
    parameter is absent they make no database call and pass one TypeError
    to next. *)
Theorem handlers_end_once (E : env) (r : request) :
  (endings (run (getTourStats E) r) = 1%nat /\ dbCalls (run (getTourStats E) r) = 1%nat)
  /\ (endings (run (getMonthlyPlan E) r) = 1%nat
      /\ dbCalls (run (getMonthlyPlan E) r) = 1%nat)
  /\ (forall l, params r !! "latlng" = Some l -> centerGiven l = true ->
        endings (run (getToursWithin E) r) = 1%nat
        /\ dbCalls (run (getToursWithin E) r) = 1%nat
        /\ endings (run (getDistances E) r) = 1%nat
        /\ dbCalls (run (getDistances E) r) = 1%nat)
  /\ (params r !! "latlng" = None ->
        run (getToursWithin E) r = [Next (Some typeError)]
        /\ run (getDistances E) r = [Next (Some typeError)]).
Proof.
  split; [|split; [|split]].
  - rewrite getTourStats_run. destruct (aggregate _ _ _); split; reflexivity.
  - rewrite getMonthlyPlan_run. cbv zeta. destruct (aggregate _ _ _); split; reflexivity.
  - intros l Hl Hc.
    rewrite (getToursWithin_run E r l Hl), (getDistances_run E r l Hl), Hc.
    cbn [List.app]. destruct (within _ _ _); destruct (aggregate _ _ _);
      repeat split; reflexivity.
  - apply geo_run_undefined.
Qed.

End LatLng.

(** ** Mount points *)

Section Mounts.
Import Http App AppObs Further.

Lemma stripPrefix_app (p1 p2 s r : string) :
  stripPrefix (p1 ++ p2) s = Some r ->
  exists m, stripPrefix p1 s = Some m /\ stripPrefix p2 m = Some r.
Proof.
  revert s. induction p1 as [|a p1 IH]; intros s H.
  - exists s. split; [reflexivity | exact H].
  - destruct s as [|b s]; [discriminate|].
    change (stripPrefix (String a p1 ++ p2) (String b s))
      with (if Ascii.eqb (Str.lower_ascii a) (Str.lower_ascii b)
            then stripPrefix (p1 ++ p2) s else None) in H.
    cbn [stripPrefix].
    destruct (Ascii.eqb (Str.lower_ascii a) (Str.lower_ascii b)); [|discriminate].
    apply IH. exact H.
Qed.

Lemma lower_slash (b : ascii) :
  Ascii.eqb (Str.lower_ascii "/") (Str.lower_ascii b) = true -> b = "/"%char.
Proof.
  destruct b as [[] [] [] [] [] [] [] []]; intros H;
    first [reflexivity | vm_compute in H; discriminate H].
Qed.

Lemma stripPrefix_slash (q m r : string) :
  stripPrefix (String "/" q) m = Some r -> exists m', m = String "/" m'.
Proof.
  destruct m as [|b m']; [discriminate|]. cbn [stripPrefix].
  destruct (Ascii.eqb _ _) eqn:Hb; [|discriminate].
  intros _. apply lower_slash in Hb. subst b. eauto.
Qed.

(** A layer mounted below /api/ is on the path only if /api is. *)
Lemma below_under_api (q p : string) :
  below ("/api" ++ String "/" q) p <> None -> mounted "/api" p = true.
Proof.
  unfold below, mounted.
  change (String.eqb ("/api" ++ String "/" q) "/") with false. cbn iota.
  destruct (stripPrefix ("/api" ++ String "/" q) p) as [x|] eqn:Hs; [|congruence].
  intros _. apply stripPrefix_app in Hs. destruct Hs as [m [H1 H2]].
  destruct (stripPrefix_slash _ _ _ H2) as [m' ->].
  unfold below. change (String.eqb "/api" "/") with false. cbn iota.
  rewrite H1. reflexivity.
Qed.

Lemma routeOf_under_api (q : string) (rt : router) (r : request) :
  routeOf ("/api" ++ String "/" q) rt r <> None -> mounted "/api" (path r) = true.
Proof.
  unfold routeOf. intros H. apply (below_under_api q).
  destruct (below _ (path r)); congruence.
Qed.

Lemma firstRoute_under_api (C : config) (r : request) :
  firstRoute C r <> None -> mounted "/api" (path r) = true.
Proof.
  unfold firstRoute. intros H.
  destruct (routeOf "/api/v1/tours" (tourRouter C) r) eqn:H1;
    [apply (routeOf_under_api "v1/tours" (tourRouter C)); intros Hn;
     change (routeOf "/api/v1/tours" (tourRouter C) r = None) in Hn; congruence|].
  destruct (routeOf "/api/v1/users" (userRouter C) r) eqn:H2;
    [apply (routeOf_under_api "v1/users" (userRouter C)); intros Hn;
     change (routeOf "/api/v1/users" (userRouter C) r = None) in Hn; congruence|].
  apply (routeOf_under_api "v1/reviews" (reviewRouter C)). exact H.
Qed.



(** X6: a request whose path is not under /api is never counted or refused
    by the rate limiter and never reaches a route handler, whatever the
    routers are: unless the body parser fails or a file under public/
    answers, the catch-all's 404 error is what is rendered. *)
Theorem outside_api (C : config) (st : store) (r : request) :
  mounted "/api" (path r) = false ->
  fst (app C st r) = st
  /\ isLimited (snd (app C st r)) = false
  /\ by_route (snd (app C st r)) = None
  /\ (parseError C r = None -> isStatic C r = false ->
      snd (app C st r) = failed C (cantFind r) r).
Proof.
  intros Hapi. rewrite app_unfold. unfold logged, admits. rewrite Hapi.
  cbn [fst snd negb orb].
  assert (Hr : firstRoute C r = None).
  { destruct (firstRoute C r) eqn:H; [|reflexivity].
    assert (Hm : mounted "/api" (path r) = true)
      by (apply (firstRoute_under_api C r); rewrite H; discriminate).
    congruence. }
  unfold below_limiter. rewrite Hr.
  split; [reflexivity|]. split; [|split].
  - destruct (parseError C r); [unfold failed, globalErrorHandler;
      destruct (development C); [|destruct (Err.isOperational _)]; reflexivity|].
    destruct (isStatic C r); [reflexivity|].
    unfold failed, globalErrorHandler. destruct (development C); reflexivity.
  - destruct (parseError C r); [reflexivity|]. destruct (isStatic C r); reflexivity.
  - intros -> ->. reflexivity.
Qed.

Lemma outside_api_witness :
  fst (app (noRoutes false) ∅ (Ref.get "/overview" [])) = ∅
  /\ isLimited (snd (app (noRoutes false) ∅ (Ref.get "/overview" []))) = false.
Proof.
  pose proof (outside_api (noRoutes false) ∅ (Ref.get "/overview" []) eq_refl) as H.
  exact (conj (proj1 H) (proj1 (proj2 H))).
Defined.

Lemma lower_eqb_first (a b : ascii) (p q m x y : string) :
  Ascii.eqb (Str.lower_ascii a) (Str.lower_ascii b) = false ->
  stripPrefix (String a p) m = Some x ->
  stripPrefix (String b q) m = Some y -> False.
Proof.
  intros Hab H1 H2. destruct m as [|c m]; [discriminate|].
  cbn [stripPrefix] in H1, H2.
  destruct (Ascii.eqb (Str.lower_ascii a) (Str.lower_ascii c)) eqn:Ha; [|discriminate].
  destruct (Ascii.eqb (Str.lower_ascii b) (Str.lower_ascii c)) eqn:Hb; [|discriminate].
  apply Ascii.eqb_eq in Ha, Hb. rewrite Ha, <- Hb, Ascii.eqb_refl in Hab. discriminate.
Qed.

(** Two mount points under /api/v1/ whose next letters differ are never
    both on a path. *)
Lemma below_disjoint (a b : ascii) (p q s : string) :
  Ascii.eqb (Str.lower_ascii a) (Str.lower_ascii b) = false ->
  below ("/api/v1/" ++ String a p) s <> None ->
  below ("/api/v1/" ++ String b q) s = None.
Proof.
  intros Hab H1. unfold below in *.
  change (String.eqb ("/api/v1/" ++ String a p) "/") with false in H1.
  change (String.eqb ("/api/v1/" ++ String b q) "/") with false. cbn iota in *.
  destruct (stripPrefix ("/api/v1/" ++ String a p) s) as [x|] eqn:Hx; [|congruence].
  destruct (stripPrefix ("/api/v1/" ++ String b q) s) as [y|] eqn:Hy; [|reflexivity].
  apply stripPrefix_app in Hx, Hy.
  destruct Hx as [m [Hm Hx]]. destruct Hy as [m' [Hm' Hy]].
  rewrite Hm in Hm'. injection Hm' as <-.
  destruct (lower_eqb_first a b p q m x y Hab Hx Hy).
Qed.

(** X7: the three routers are mounted on disjoint parts of /api: whatever
    the path, at most one of /api/v1/tours, /api/v1/users and
    /api/v1/reviews is on it, so a request is offered to at most one
    router. *)
Theorem routers_disjoint (s : string) :
  (mounted "/api/v1/tours" s = true ->
     mounted "/api/v1/users" s = false /\ mounted "/api/v1/reviews" s = false)
  /\ (mounted "/api/v1/users" s = true ->
     mounted "/api/v1/tours" s = false /\ mounted "/api/v1/reviews" s = false)
  /\ (mounted "/api/v1/reviews" s = true ->
     mounted "/api/v1/tours" s = false /\ mounted "/api/v1/users" s = false).
Proof.
  assert (D : forall (a b : ascii) (p q : string),
            Ascii.eqb (Str.lower_ascii a) (Str.lower_ascii b) = false ->
            mounted ("/api/v1/" ++ String a p) s = true ->
            mounted ("/api/v1/" ++ String b q) s = false).
  { intros a b p q Hab H. unfold mounted in *.
    rewrite (below_disjoint a b p q s Hab); [reflexivity|].
    destruct (below _ s); [discriminate|discriminate H]. }
  split; [|split]; intros H; split.
  - exact (D "t"%char "u"%char "ours" "sers" eq_refl H).
  - exact (D "t"%char "r"%char "ours" "eviews" eq_refl H).
  - exact (D "u"%char "t"%char "sers" "ours" eq_refl H).
  - exact (D "u"%char "r"%char "sers" "eviews" eq_refl H).
  - exact (D "r"%char "t"%char "eviews" "ours" eq_refl H).
  - exact (D "r"%char "u"%char "eviews" "sers" eq_refl H).
Qed.

End Mounts.

(** ** Groups partition what they group *)

Section Partition.
Import Mongo Model Rollup Http TourController Obs.

Lemma filter_all {A} (p : A -> bool) (l : list A) :
  (forall x, In x l -> p x = true) -> List.filter p l = l.
Proof.
  induction l as [|a l IH]; intros H; [reflexivity|].
  cbn. rewrite (H a) by (left; reflexivity).
  rewrite IH by (intros x Hx; apply H; right; exact Hx). reflexivity.
Qed.

Lemma concat_split_key {A K} (eqb : K -> K -> bool) (G : K -> list A) (x : K)
    (D : list K) :
  (forall a b, eqb a b = true <-> a = b) ->
  List.NoDup D ->
  (~ In x D -> G x = []) ->
  Permutation
    (G x ++ List.concat (List.map G (List.filter (fun y => negb (eqb y x)) D)))%list
    (List.concat (List.map G D)).
Proof.
  intros Heq. induction D as [|d D IH]; intros Hnd Hx.
  - cbn. rewrite Hx by tauto. constructor.
  - inversion Hnd as [|d' D' Hd HD]; subst. cbn [List.filter].
    destruct (eqb d x) eqn:Hdx; cbn [negb].
    + apply Heq in Hdx. subst d.
      rewrite filter_all; [reflexivity|].
      intros y Hy. destruct (eqb y x) eqn:Hyx; [|reflexivity].
      apply Heq in Hyx. subst y. contradiction.
    + cbn [List.map List.concat].
      rewrite Permutation_app_swap_app. apply Permutation_app_head.
      apply IH; [exact HD|].
      intros Hn. apply Hx. intros [->|Hin]; [|contradiction].
      assert (Hxx : eqb x x = true) by (apply Heq; reflexivity). congruence.
Qed.

(** The groups of [distinct] keys hold every element exactly once. *)
Lemma distinct_partition {A K} (eqb : K -> K -> bool) (key : A -> K) (l : list A) :
  (forall a b, eqb a b = true <-> a = b) ->
  Permutation
    (List.concat
       (List.map (fun k => List.filter (fun x => eqb (key x) k) l)
          (distinct eqb (List.map key l))))
    l.
Proof.
  intros Heq.
  assert (Hrefl : forall k, eqb k k = true) by (intros k; apply Heq; reflexivity).
  induction l as [|a l IH]; [constructor|].
  cbn [List.map distinct List.concat List.filter]. rewrite Hrefl.
  cbn [List.app]. constructor.
  eapply Permutation_trans; [|exact IH].
  eapply Permutation_trans;
    [|apply (concat_split_key eqb (fun k => List.filter (fun x => eqb (key x) k) l)
               (key a) (distinct eqb (List.map key l)) Heq)].
  - apply Permutation_app_head.
    match goal with
    | |- Permutation (List.concat ?u) (List.concat ?v) => assert (Huv : u = v)
    end.
    { apply List.map_ext_in. intros k Hk. apply filter_In in Hk.
      destruct Hk as [_ Hk].
      destruct (eqb (key a) k) eqn:Hak; [|reflexivity].
      apply Heq in Hak. subst k. rewrite Hrefl in Hk. discriminate. }
    rewrite Huv. reflexivity.
  - apply distinct_NoDup. exact Heq.
  - intros Hn. destruct (List.filter _ l) as [|e t] eqn:Hf; [reflexivity|].
    exfalso. apply Hn.
    assert (He : In e (List.filter (fun x => eqb (key x) (key a)) l))
      by (rewrite Hf; left; reflexivity).
    apply filter_In in He. destruct He as [Hin Hk]. apply Heq in Hk.
    apply (distinct_complete eqb _ _ Heq). rewrite <- Hk.
    apply in_map. exact Hin.
Qed.

Lemma Qsum_app (l1 l2 : list Q) : (Qsum (l1 ++ l2) == Qsum l1 + Qsum l2)%Q.
Proof.
  induction l1 as [|q l1 IH]; cbn [List.app Qsum fold_right].
  - fold (Qsum l2). rewrite Qplus_0_l. reflexivity.
  - fold (Qsum (l1 ++ l2)) (Qsum l1). rewrite IH, Qplus_assoc. reflexivity.
Qed.

Lemma Qsum_perm (l1 l2 : list Q) : Permutation l1 l2 -> (Qsum l1 == Qsum l2)%Q.
Proof.
  induction 1 as [|x l l' _ IH|x y l|l l' l'' _ IH1 _ IH2];
    cbn [Qsum fold_right].
  - reflexivity.
  - fold (Qsum l) (Qsum l'). rewrite IH. reflexivity.
  - fold (Qsum l). rewrite !Qplus_assoc, (Qplus_comm y x). reflexivity.
  - rewrite IH1. exact IH2.
Qed.

(** The sums over the groups add up to the sum over everything. *)
Lemma Qsum_groups {A K} (eqb : K -> K -> bool) (key : A -> K) (g : A -> Q)
    (l : list A) :
  (forall a b, eqb a b = true <-> a = b) ->
  (Qsum (List.map (fun k => Qsum (List.map g (List.filter (fun x => eqb (key x) k) l)))
           (distinct eqb (List.map key l)))
   == Qsum (List.map g l))%Q.
Proof.
  intros Heq.
  rewrite <- (Qsum_perm _ _ (Permutation_map g (distinct_partition eqb key l Heq))).
  induction (distinct eqb (List.map key l)) as [|k ks IH]; [reflexivity|].
  cbn [List.map List.concat Qsum fold_right].
  rewrite List.map_app, Qsum_app.
  fold (Qsum (List.map (fun k0 => Qsum (List.map g (List.filter (fun x => eqb (key x) k0) l))) ks)).
  rewrite IH. reflexivity.
Qed.

End Partition.

(** ** More on getTourStats *)

Section StatsMore.
Import Mongo Model Rollup Http TourController Obs.

Lemma tierStats_sums (g : Tour -> Q) (ts : list Tour) :
  (Qsum (List.map (fun k => Qsum (List.map g (tierMembers k ts))) (tiers ts))
   == Qsum (List.map g (List.filter rated ts)))%Q.
Proof. apply (Qsum_groups String.eqb tierOf g _ String.eqb_eq). Qed.

(** X8: the rows of getTourStats partition the tours rated 4.5 or more:
    their numTours add up to the number of those tours and their
    numRatings to the sum of those tours' rating counts, so no such tour
    is lost or counted twice; and the list of rows is empty exactly when no
    tour is rated 4.5 or more (an empty collection included), in which case
    the response is still a 200. *)
Theorem getTourStats_partition (R : JS.runtime) (D : driver) (ts : list Tour)
    (r : request) :
  exists stats : list TourStat,
    run (getTourStats {| rt := R; drv := D; collection := List.map toDoc ts |}) r
    = [ Aggregate statsPipeline;
        Send {| code := 200;
                body := Json (success None (Wrapped "stats" (List.map statDoc stats))) |} ]
    /\ (Qsum (List.map numTours stats)
        == inject_Z (Z.of_nat (length (List.filter rated ts))))%Q
    /\ (Qsum (List.map numRatings stats)
        == Qsum (List.map ratingsQuantity (List.filter rated ts)))%Q
    /\ (stats = [] <-> forall t, In t ts -> (4.5 <=? ratingsAverage t)%float = false).
Proof.
  destruct (stats_rows R D ts r) as [stats [Hrun [HP _]]].
  exists stats. split; [exact Hrun|]. split; [|split].
  - rewrite (Qsum_perm _ _ (Permutation_map numTours HP)).
    unfold tierStats. rewrite List.map_map. cbn [numTours statOf].
    rewrite <- (Qsum_ones (List.filter rated ts)).
    rewrite <- (tierStats_sums (fun _ => 1%Q) ts).
    match goal with
    | |- (Qsum ?u == Qsum ?v)%Q => assert (Huv : u = v)
    end.
    { apply List.map_ext. intros k. symmetry. apply Qsum_ones. }
    rewrite Huv. reflexivity.
  - rewrite (Qsum_perm _ _ (Permutation_map numRatings HP)).
    unfold tierStats. rewrite List.map_map. cbn [numRatings statOf].
    apply tierStats_sums.
  - split.
    + intros -> t Hin. destruct (4.5 <=? ratingsAverage t)%float eqn:Hr; [|reflexivity].
      exfalso. apply Permutation_nil in HP. unfold tierStats in HP.
      assert (Hk : In (Str.toUpper (difficulty t)) (tiers ts))
        by (apply tiers_spec; eauto).
      apply (in_map (fun k => statOf k (tierMembers k ts))) in Hk.
      rewrite HP in Hk. exact Hk.
    + intros H. apply Permutation_sym in HP.
      assert (Ht : tiers ts = []).
      { destruct (tiers ts) as [|k ks] eqn:Hk; [reflexivity|]. exfalso.
        assert (Hin : In k (tiers ts)) by (rewrite Hk; left; reflexivity).
        apply tiers_spec in Hin. destruct Hin as [t [Hin [Hr _]]].
        rewrite (H t Hin) in Hr. discriminate. }
      unfold tierStats in HP. rewrite Ht in HP. cbn in HP.
      apply Permutation_nil in HP. exact HP.
Qed.

End StatsMore.

(** ** More on getMonthlyPlan *)

Section PlanMore.
Import Mongo Model Rollup Http TourController Obs.

Ltac calendar :=
  unfold Cal.days_from_civil, Cal.year_of_days, Cal.month_of_days, Cal.mp_of,
    Cal.doy_of, Cal.yoe_of, Cal.doe_of in *;
  cbn [Z.leb Z.ltb Z.compare Pos.compare Pos.compare_cont] in *;
  repeat match goal with
         | |- context [if ?b then _ else _] => destruct b eqn:?
         | H : context [if ?b then _ else _] |- _ => destruct b eqn:?
         end;
  repeat match goal with
         | H : (_ <? _) = true |- _ => apply Z.ltb_lt in H
         | H : (_ <? _) = false |- _ => apply Z.ltb_ge in H
         | H : (_ <=? _) = true |- _ => apply Z.leb_le in H
         | H : (_ <=? _) = false |- _ => apply Z.leb_gt in H
         end;
  Z.div_mod_to_equations; lia.

Lemma year_from_jan1 (z Y : Z) :
  Cal.days_from_civil Y 1 1 <= z -> Y <= Cal.year_of_days z.
Proof. intros H. calendar. Qed.

Lemma year_before_jan1 (z Y : Z) :
  z < Cal.days_from_civil (Y + 1) 1 1 -> Cal.year_of_days z <= Y.
Proof. intros H. calendar. Qed.

Lemma dec31_last_day (Y : Z) :
  Cal.days_from_civil Y 12 31 + 1 = Cal.days_from_civil (Y + 1) 1 1.
Proof. calendar. Qed.

(** The instants from the start of 1 January to the start of 31 December
    of year [Y] are those of calendar year [Y] that are not after the start
    of 31 December. *)
Lemma year_window (Y d : Z) :
  Cal.utc Y 1 1 <= d <= Cal.utc Y 12 31 <-> Cal.year d = Y /\ d <= Cal.utc Y 12 31.
Proof.
  unfold Cal.utc, Cal.year, Cal.days_of_ms, Cal.msPerDay. split.
  - intros [Hlo Hhi]. split; [|exact Hhi].
    assert (H1 : Cal.days_from_civil Y 1 1 <= d / 86400000)
      by (apply Z.div_le_lower_bound; lia).
    assert (H2 : d / 86400000 < Cal.days_from_civil (Y + 1) 1 1).
    { rewrite <- dec31_last_day.
      assert (d / 86400000 <= Cal.days_from_civil Y 12 31); [|lia].
      apply Z.div_le_upper_bound; lia. }
    apply year_from_jan1 in H1. apply year_before_jan1 in H2. lia.
  - intros [Hy Hhi]. split; [|exact Hhi].
    destruct (Z_lt_le_dec d (Cal.days_from_civil Y 1 1 * 86400000)) as [Hlt|Hge];
      [|exact Hge].
    exfalso.
    assert (H : d / 86400000 < Cal.days_from_civil (Y - 1 + 1) 1 1).
    { replace (Y - 1 + 1) with Y by lia. apply Z.div_lt_upper_bound; lia. }
    apply year_before_jan1 in H. lia.
Qed.

(** What getMonthlyPlan sends between two valid bounds: some arrangement
    of the month rows. *)
Lemma plan_rows (R : JS.runtime) (D : driver) (ts : list Tour) (r : request)
    (y : string) (lo hi : Z) :
  params r !! "year" = Some y ->
  yearStart R (JS.ToNumber R y * 1)%float = Some lo ->
  yearEnd R (JS.ToNumber R y * 1)%float = Some hi ->
  exists rows : list MonthRow,
    run (getMonthlyPlan {| rt := R; drv := D; collection := List.map toDoc ts |}) r
    = [ Aggregate (planPipeline (Some lo) (Some hi));
        Send {| code := 200;
                body := Json (success None (Wrapped "plan" (List.map rowDoc rows))) |} ]
    /\ Permutation rows (monthRows lo hi ts).
Proof.
  intros Hy Hlo Hhi.
  destruct (sort_rows keyGe numTourStarts rowDoc (monthRows lo hi ts))
    as [rows [Hs [HP _]]].
  assert (Hlen : (length rows <= 12)%nat).
  { rewrite (Permutation_length HP). unfold monthRows. rewrite List.length_map.
    apply months_length. }
  exists rows. split; [|exact HP].
  rewrite getMonthlyPlan_run. cbv zeta. cbn [rt drv collection].
  rewrite Hy. cbn [JS.toNumber]. rewrite Hlo, Hhi.
  change (planPipeline (Some lo) (Some hi)) with
    ([ S_unwind "startDates";
       S_match [("startDates", [Gte (jsDate (Some lo)); Lte (jsDate (Some hi))])];
       S_group (Month (Field "startDates"))
         [ ("numTourStarts", Sum (Lit (SNum 1)));
           ("tours", Push (Field "name")) ];
       S_addFields [("month", Field "_id")];
       S_project [("_id", false)] ]
     ++ [S_sort "numTourStarts" (-1); S_limit 12])%list at 2.
  rewrite aggregate_app, plan_before_sort.
  cbn [mbind option_bind aggregate runStage].
  rewrite (proj2 (sortDocs_rows "numTourStarts" numTourStarts rowDoc
                    (monthRows lo hi ts) (fun a => eq_refl))).
  cbn [mbind option_bind]. rewrite Hs.
  rewrite firstn_all2 by (rewrite List.length_map; exact Hlen).
  reflexivity.
Qed.

Lemma monthRows_names (lo hi : Z) (ts : list Tour) :
  Permutation (List.flat_map tours (monthRows lo hi ts))
    (List.map (fun s => name (fst s)) (List.filter (between lo hi) (starts ts))).
Proof.
  unfold monthRows. rewrite List.flat_map_concat_map, List.map_map.
  cbn [tours rowOf].
  rewrite <- (List.map_map (fun m => monthMembers lo hi m ts)
                (List.map (fun s => name (fst s)))).
  rewrite <- List.concat_map. apply Permutation_map.
  apply (distinct_partition Z.eqb monthOf _ Z.eqb_eq).
Qed.

(** X10: between two valid bounds, the rows of getMonthlyPlan partition the
    start dates the filter keeps: the names listed over all rows are, up
    to order, the tour names of those start dates (one entry per date), the
    counts add up to their number, and no month has two rows. *)
Theorem getMonthlyPlan_partition (R : JS.runtime) (D : driver) (ts : list Tour)
    (r : request) (y : string) (lo hi : Z) :
  params r !! "year" = Some y ->
  yearStart R (JS.ToNumber R y * 1)%float = Some lo ->
  yearEnd R (JS.ToNumber R y * 1)%float = Some hi ->
  exists rows : list MonthRow,
    run (getMonthlyPlan {| rt := R; drv := D; collection := List.map toDoc ts |}) r
    = [ Aggregate (planPipeline (Some lo) (Some hi));
        Send {| code := 200;
                body := Json (success None (Wrapped "plan" (List.map rowDoc rows))) |} ]
    /\ Permutation (List.flat_map tours rows)
         (List.map (fun s => name (fst s)) (List.filter (between lo hi) (starts ts)))
    /\ (Qsum (List.map numTourStarts rows)
        == inject_Z (Z.of_nat (length (List.filter (between lo hi) (starts ts)))))%Q
    /\ List.NoDup (List.map month rows).
Proof.
  intros Hy Hlo Hhi.
  destruct (plan_rows R D ts r y lo hi Hy Hlo Hhi) as [rows [Hrun HP]].
  exists rows. split; [exact Hrun|]. split; [|split].
  - rewrite (Permutation_flat_map tours HP). apply monthRows_names.
  - rewrite (Qsum_perm _ _ (Permutation_map numTourStarts HP)).
    unfold monthRows. rewrite List.map_map. cbn [numTourStarts rowOf].
    rewrite <- (Qsum_ones (List.filter (between lo hi) (starts ts))).
    rewrite <- (Qsum_groups Z.eqb monthOf (fun _ => 1%Q) _ Z.eqb_eq).
    match goal with
    | |- (Qsum ?u == Qsum ?v)%Q => assert (Huv : u = v)
    end.
    { apply List.map_ext. intros m. symmetry. apply Qsum_ones. }
    rewrite Huv. reflexivity.
  - apply (Permutation_NoDup (l := List.map month (monthRows lo hi ts))).
    + apply Permutation_map. symmetry. exact HP.
    + unfold monthRows. rewrite List.map_map. cbn [month rowOf].
      rewrite List.map_id. apply months_NoDup.
Qed.

Lemma getMonthlyPlan_partition_witness :
  exists rows : list MonthRow,
    run (getMonthlyPlan (Ref.env [forestHiker; seaExplorer])) plan2021
    = [ Aggregate (planPipeline (Some (Cal.utc 2021 1 1)) (Some (Cal.utc 2021 12 31)));
        Send {| code := 200;
                body := Json (success None (Wrapped "plan" (List.map rowDoc rows))) |} ]
    /\ List.NoDup (List.map month rows).
Proof.
  destruct (getMonthlyPlan_partition Ref.runtime Ref.driver [forestHiker; seaExplorer]
              plan2021 "2021" (Cal.utc 2021 1 1) (Cal.utc 2021 12 31)
              eq_refl eq_refl eq_refl) as [rows H].
  exists rows.
  exact (conj (proj1 H) (proj2 (proj2 (proj2 H)))).
Defined.

(** X11: when the bounds built from the year are the start of 1 January and
    the start of 31 December of year Y, the names a row of getMonthlyPlan
    lists are exactly the names of the tours with a start date in the row's
    month of calendar year Y (UTC) that is not after 00:00 on 31 December;
    so no start date of another year is ever counted, and every start date
    of year Y up to that instant appears in the row of its month. *)
Theorem getMonthlyPlan_year_window (R : JS.runtime) (D : driver) (ts : list Tour)
    (r : request) (y : string) (Y : Z) :
  params r !! "year" = Some y ->
  yearStart R (JS.ToNumber R y * 1)%float = Some (Cal.utc Y 1 1) ->
  yearEnd R (JS.ToNumber R y * 1)%float = Some (Cal.utc Y 12 31) ->
  exists rows : list MonthRow,
    run (getMonthlyPlan {| rt := R; drv := D; collection := List.map toDoc ts |}) r
    = [ Aggregate (planPipeline (Some (Cal.utc Y 1 1)) (Some (Cal.utc Y 12 31)));
        Send {| code := 200;
                body := Json (success None (Wrapped "plan" (List.map rowDoc rows))) |} ]
    /\ (forall row n,
          In row rows ->
          (In n (tours row)
           <-> exists t d, In t ts /\ name t = n /\ In d (startDates t)
                           /\ Cal.year d = Y /\ d <= Cal.utc Y 12 31
                           /\ Cal.month d = month row))
    /\ (forall t d,
          In t ts -> In d (startDates t) ->
          Cal.year d = Y -> d <= Cal.utc Y 12 31 ->
          exists row, In row rows /\ month row = Cal.month d /\ In (name t) (tours row)).
Proof.
  intros Hy Hlo Hhi.
  destruct (plan_rows R D ts r y _ _ Hy Hlo Hhi) as [rows [Hrun HP]].
  exists rows. split; [exact Hrun|].
  assert (Hm : forall m t d,
            In (t, d) (monthMembers (Cal.utc Y 1 1) (Cal.utc Y 12 31) m ts)
            <-> In t ts /\ In d (startDates t)
                /\ (Cal.year d = Y /\ d <= Cal.utc Y 12 31) /\ Cal.month d = m).
  { intros m t d. rewrite monthMembers_spec, year_window. reflexivity. }
  split.
  - intros row n Hin. apply (Permutation_in _ HP) in Hin. unfold monthRows in Hin.
    apply in_map_iff in Hin. destruct Hin as [m [<- _]]. cbn [tours month rowOf].
    rewrite in_map_iff. split.
    + intros [[t d] [Hn Hs]]. apply Hm in Hs. exists t, d. cbn [fst] in Hn. tauto.
    + intros [t [d [Ht [Hn [Hd [Hyr [Hle Hmo]]]]]]]. exists (t, d).
      split; [exact Hn|]. apply Hm. tauto.
  - intros t d Ht Hd Hyr Hle.
    assert (Hs : In (t, d) (monthMembers (Cal.utc Y 1 1) (Cal.utc Y 12 31)
                              (Cal.month d) ts)) by (apply Hm; tauto).
    assert (Hmonth : In (Cal.month d) (months (Cal.utc Y 1 1) (Cal.utc Y 12 31) ts)).
    { unfold months. apply (distinct_complete _ _ _ Z.eqb_eq).
      unfold monthMembers in Hs. apply filter_In in Hs. destruct Hs as [Hs _].
      apply in_map_iff. exists (t, d). split; [reflexivity | exact Hs]. }
    exists (rowOf (Cal.month d)
              (monthMembers (Cal.utc Y 1 1) (Cal.utc Y 12 31) (Cal.month d) ts)).
    split; [|split].
    + apply (Permutation_in _ (Permutation_sym HP)). unfold monthRows.
      apply in_map_iff. exists (Cal.month d). split; [reflexivity | exact Hmonth].
    + reflexivity.
    + cbn [tours rowOf]. apply in_map_iff. exists (t, d). split; [reflexivity|exact Hs].
Qed.

Lemma getMonthlyPlan_year_window_witness :
  exists rows : list MonthRow,
    run (getMonthlyPlan (Ref.env [forestHiker; seaExplorer])) plan2021
    = [ Aggregate (planPipeline (Some (Cal.utc 2021 1 1)) (Some (Cal.utc 2021 12 31)));
        Send {| code := 200;
                body := Json (success None (Wrapped "plan" (List.map rowDoc rows))) |} ].
Proof.
  destruct (getMonthlyPlan_year_window Ref.runtime Ref.driver [forestHiker; seaExplorer]
              plan2021 "2021" 2021 eq_refl eq_refl eq_refl) as [rows H].
  exists rows. exact (proj1 H).
Defined.

End PlanMore.
